(** * Sveltia GitHub CMS authenticator: the worker of [src/index.js]

  A shallow embedding of the Cloudflare worker (router, authorization
  initiator, callback handler, response renderer) and the properties of its
  request handling.

  Conventions of the embedding.
  - A JavaScript string is a [string]: a sequence of code units, here the
    code units 0..255.
  - [undefined] is [None].
  - The two calls that leave the worker, [crypto.randomUUID()] and the
    outbound [fetch], are the nodes of an interaction tree [io]; what the
    platform answers is the argument of the continuation.  An exception
    that nothing catches is the leaf [Throw]. *)

From Stdlib Require Import Bool Arith Lia List Ascii String.
Import ListNotations.
Open Scope string_scope.

(* ================================================================= *)
(** ** Strings *)

Module Str.

(** The one-character string. *)
Definition char (c : ascii) : string := String c "".

(** The double quote, as a string. *)
Definition dquote : string := char (ascii_of_nat 34).

(** [c] is one of the characters of [set]. *)
Fixpoint mem (c : ascii) (set : string) : bool :=
  match set with
  | "" => false
  | String x set' => Ascii.eqb c x || mem c set'
  end.

(** [lo <= c <= hi] on code units. *)
Definition between (lo hi c : ascii) : bool :=
  ((nat_of_ascii lo <=? nat_of_ascii c) && (nat_of_ascii c <=? nat_of_ascii hi))%nat.

(** [s] starts with [c]. *)
Definition head_is (c : ascii) (s : string) : bool :=
  match s with
  | "" => false
  | String x _ => Ascii.eqb x c
  end.

Fixpoint all (p : ascii -> bool) (s : string) : bool :=
  match s with
  | "" => true
  | String c s' => p c && all p s'
  end.

Fixpoint drop (n : nat) (s : string) : string :=
  match n, s with
  | S n', String _ s' => drop n' s'
  | _, _ => s
  end.

Fixpoint rev_onto (s acc : string) : string :=
  match s with
  | "" => acc
  | String c s' => rev_onto s' (String c acc)
  end.

Definition rev (s : string) : string := rev_onto s "".

(** White space and line terminators of ECMAScript among the code units
    0..255: TAB, LF, VT, FF, CR, SPACE, NBSP. *)
Definition is_space (c : ascii) : bool :=
  let n := nat_of_ascii c in
  (((9 <=? n) && (n <=? 13)) || (n =? 32) || (n =? 160))%nat.

Fixpoint trimStart (s : string) : string :=
  match s with
  | "" => ""
  | String c s' => if is_space c then trimStart s' else s
  end.

(** [String.prototype.trim]. *)
Definition trim (s : string) : string := rev (trimStart (rev (trimStart s))).

(** [s.split(sep)] for a one-character separator: the pieces between the
    separators, [""] included; never the empty list. *)
Fixpoint split (sep : ascii) (s : string) : list string :=
  match s with
  | "" => [""]
  | String c s' =>
      if Ascii.eqb c sep then "" :: split sep s'
      else match split sep s' with
           | [] => [char c]
           | piece :: pieces => String c piece :: pieces
           end
  end.

(** [s.replace(pat, rep)] for a string [pat]: the first occurrence only. *)
Fixpoint replace (pat rep s : string) : string :=
  if prefix pat s then rep ++ drop (length pat) s
  else match s with
       | "" => ""
       | String c s' => String c (replace pat rep s')
       end.

(** [s.replaceAll(pat, rep)] for a non-empty string [pat]: every occurrence,
    left to right, without overlap.  [skip] counts the characters of an
    occurrence just replaced that are still to be passed over. *)
Fixpoint replaceAll_from (skip : nat) (pat rep s : string) : string :=
  match s with
  | "" => ""
  | String c s' =>
      match skip with
      | S k => replaceAll_from k pat rep s'
      | 0 =>
          if prefix pat s then rep ++ replaceAll_from (length pat - 1) pat rep s'
          else String c (replaceAll_from 0 pat rep s')
      end
  end.

Definition replaceAll (pat rep s : string) : string := replaceAll_from 0 pat rep s.

End Str.

(* ================================================================= *)
(** ** Regular expressions

  The fragment of ECMAScript regular expressions the worker uses: the
  pattern it builds for an allow-list entry ([^], [$], [.], [+], escaped
  and plain characters) and the literal [/\bcsrf-token=([0-9a-f]{32})\b/]
  ([\b], a character class, a counted repetition, one capturing group).
  No flag is set anywhere: [.] excludes line terminators, [^] and [$] match
  at the ends of the input only. *)

Module RegExp.

(** What one atom accepts. *)
Inductive cset : Type :=
  | Dot                                     (* [.] *)
  | Chr (c : ascii)                         (* a character, plain or escaped *)
  | Ranges (rs : list (ascii * ascii)).     (* [[a-b...]] *)

Inductive node : Type :=
  | Bol                                     (* [^] *)
  | Eol                                     (* [$] *)
  | WordB                                   (* [\b] *)
  | One (cs : cset)                         (* an atom *)
  | Plus (cs : cset)                        (* an atom followed by [+], greedy *)
  | Times (n : nat) (cs : cset)             (* an atom followed by [{n}] *)
  | GroupOpen                               (* [(] of the capturing group *)
  | GroupClose.                             (* [)] of the capturing group *)

Definition regex : Type := list node.

(** LF and CR, the line terminators among the code units 0..255. *)
Definition is_line_terminator (c : ascii) : bool :=
  let n := nat_of_ascii c in ((n =? 10) || (n =? 13))%nat.

(** [\w]: letters, digits and the underscore. *)
Definition is_word_char (c : ascii) : bool :=
  Str.between "a" "z" c || Str.between "A" "Z" c || Str.between "0" "9" c
  || Ascii.eqb c "_".

Definition cset_mem (cs : cset) (c : ascii) : bool :=
  match cs with
  | Dot => negb (is_line_terminator c)
  | Chr x => Ascii.eqb c x
  | Ranges rs => existsb (fun r => Str.between (fst r) (snd r) c) rs
  end.

(** The syntax characters of a pattern. *)
Definition syntax_chars : string := "^$\.*+?()[]{}|".

(** [new RegExp(src)] on the fragment [^ $ . \c c] with an optional [+]
    after an atom.  [None]: [src] is outside the fragment. *)
Fixpoint parse (src : string) : option regex :=
  match src with
  | "" => Some []
  | String c s1 =>
      if Ascii.eqb c "^" then option_map (cons Bol) (parse s1)
      else if Ascii.eqb c "$" then option_map (cons Eol) (parse s1)
      else if Ascii.eqb c "\" then
        match s1 with
        | "" => None
        | String e s2 =>
            if Str.mem e syntax_chars then
              match s2 with
              | "" => Some [One (Chr e)]
              | String q s3 =>
                  if Ascii.eqb q "+" then option_map (cons (Plus (Chr e))) (parse s3)
                  else option_map (cons (One (Chr e))) (parse s2)
              end
            else None
        end
      else if Ascii.eqb c "." || negb (Str.mem c syntax_chars) then
        let cs := if Ascii.eqb c "." then Dot else Chr c in
        match s1 with
        | "" => Some [One cs]
        | String q s2 =>
            if Ascii.eqb q "+" then option_map (cons (Plus cs)) (parse s2)
            else option_map (cons (One cs)) (parse s1)
        end
      else None
  end.

(** The pattern of a text whose characters all stand for themselves. *)
Fixpoint literal (text : string) : regex :=
  match text with
  | "" => []
  | String c text' => One (Chr c) :: literal text'
  end.

(** The matcher's context at a position of the input: the character before
    the position, the text of the capturing group while it is open, and the
    text it captured once closed. *)
Record ctx : Type := {
    prev : option ascii;
    opened : option string;
    captured : option string
  }.

Definition start (p : option ascii) : ctx :=
  {| prev := p; opened := None; captured := None |}.

(** Consume [c]. *)
Definition step (x : ctx) (c : ascii) : ctx :=
  {| prev := Some c;
     opened := option_map (fun g => g ++ Str.char c) (opened x);
     captured := captured x |}.

(** Consume the characters of [s]. *)
Fixpoint steps (x : ctx) (s : string) : ctx :=
  match s with
  | "" => x
  | String c s' => steps (step x c) s'
  end.

Definition word_before (x : ctx) : bool :=
  match prev x with Some c => is_word_char c | None => false end.

Definition word_after (s : string) : bool :=
  match s with String c _ => is_word_char c | "" => false end.

Section Matcher.
Context {R : Type}.

(** What is left of the pattern, as a function of the position. *)
Definition cont : Type := ctx -> string -> option R.

(** [cs+]: as many characters as possible, at least one, giving them back
    one at a time while the rest of the pattern fails. *)
Fixpoint m_plus (cs : cset) (k : cont) (x : ctx) (s : string) : option R :=
  match s with
  | "" => None
  | String c s' =>
      if cset_mem cs c then
        match m_plus cs k (step x c) s' with
        | Some r => Some r
        | None => k (step x c) s'
        end
      else None
  end.

(** [cs{n}]. *)
Fixpoint m_times (n : nat) (cs : cset) (k : cont) (x : ctx) (s : string) : option R :=
  match n with
  | 0 => k x s
  | S n' =>
      match s with
      | "" => None
      | String c s' => if cset_mem cs c then m_times n' cs k (step x c) s' else None
      end
  end.

(** Backtracking match of a pattern at a position. *)
Fixpoint m (r : regex) (k : cont) (x : ctx) (s : string) : option R :=
  match r with
  | [] => k x s
  | Bol :: r' => match prev x with None => m r' k x s | Some _ => None end
  | Eol :: r' => match s with "" => m r' k x s | String _ _ => None end
  | WordB :: r' => if xorb (word_before x) (word_after s) then m r' k x s else None
  | One cs :: r' =>
      match s with
      | "" => None
      | String c s' => if cset_mem cs c then m r' k (step x c) s' else None
      end
  | Plus cs :: r' => m_plus cs (m r' k) x s
  | Times n cs :: r' => m_times n cs (m r' k) x s
  | GroupOpen :: r' =>
      m r' k {| prev := prev x; opened := Some ""; captured := captured x |} s
  | GroupClose :: r' =>
      m r' k {| prev := prev x; opened := None; captured := opened x |} s
  end.
End Matcher.

(** The pattern matched at the position: the capture of group 1. *)
Definition accept : @cont (option string) := fun x _ => Some (captured x).

(** The first position, from the left, where the pattern matches. *)
Fixpoint search (r : regex) (p : option ascii) (s : string) : option (option string) :=
  match m r accept (start p) s with
  | Some g => Some g
  | None =>
      match s with
      | "" => None
      | String c s' => search r (Some c) s'
      end
  end.

(** [regex.exec(s)] without the [g] or [y] flag: [None] for [null],
    [Some g] for a match whose group 1 is [g]. *)
Definition exec (r : regex) (s : string) : option (option string) := search r None s.

End RegExp.

(** Line 7: [str.replace(/[.*+?^${}()|[\]\\]/g, '\\$&')]. *)
Definition escapeRegExp_class : string := ".*+?^${}()|[]\".

Fixpoint escapeRegExp (str : string) : string :=
  match str with
  | "" => ""
  | String c str' =>
      if Str.mem c escapeRegExp_class
      then String "\" (String c (escapeRegExp str'))
      else String c (escapeRegExp str')
  end.

(** Line 78: the source of the pattern built for the allow-list entry [str]. *)
Definition domain_pattern (str : string) : string :=
  "^" ++ Str.replace "\*" ".+" (escapeRegExp (Str.trim str)) ++ "$".

(** Line 78: [domain.match(new RegExp(...))], as a truth value.  [new RegExp]
    accepts every pattern built here (lemma [domain_pattern_parses] below), so
    the last branch is never taken. *)
Definition domain_match (str domain : string) : bool :=
  match RegExp.parse (domain_pattern str) with
  | Some r => match RegExp.exec r domain with Some _ => true | None => false end
  | None => false
  end.


(* ================================================================= *)
(** ** JSON values and [JSON.stringify] *)

#[local] Set Warnings "-register-all".

(** A value of a parsed JSON text.  A number is carried by the text that
    [JSON.stringify] prints for it ([Number::toString] of a finite number, [0]
    for both zeros; [null] for a number that overflowed): doubles themselves
    are outside the embedding.  An object holds its own properties in
    enumeration order. *)
Inductive json : Type :=
| JNull
| JBool (b : bool)
| JNum (text : string)
| JStr (s : string)
| JArr (items : list json)
| JObj (props : list (string * json)).

(** [ToBoolean] of a value that may be [undefined]. *)
Definition truthy (v : option json) : bool :=
  match v with
  | None => false
  | Some JNull => false
  | Some (JBool b) => b
  | Some (JNum text) => negb (text =? "0")
  | Some (JStr s) => negb (s =? "")
  | Some (JArr _) => true
  | Some (JObj _) => true
  end.

(** [ToBoolean] of a string that may be [undefined]. *)
Definition truthy_string (v : option string) : bool :=
  match v with
  | Some s => negb (s =? "")
  | None => false
  end.

(** [ToString] of a string that may be [undefined]. *)
Definition ToString (v : option string) : string :=
  match v with
  | Some s => s
  | None => "undefined"
  end.

(** [a === b] on strings that may be [undefined]. *)
Definition strict_equal (a b : option string) : bool :=
  match a, b with
  | Some x, Some y => x =? y
  | None, None => true
  | _, _ => false
  end.

(** The last binding of [key]: what [obj[key]] holds after the entries were
    assigned in order. *)
Fixpoint assoc_last {V : Type} (key : string) (entries : list (string * V)) : option V :=
  match entries with
  | [] => None
  | (k, v) :: rest =>
      match assoc_last key rest with
      | Some v' => Some v'
      | None => if k =? key then Some v else None
      end
  end.

(** The own property [key] of [v], [undefined] when [v] has none: what
    [v[key]] is for a [key] that no prototype defines and a [v] other than
    [null]. *)
Definition get_property (v : json) (key : string) : option json :=
  match v with
  | JObj props => assoc_last key props
  | _ => None
  end.

Definition hex_lower (n : nat) : string :=
  match get n "0123456789abcdef" with Some c => Str.char c | None => "" end.

Definition hex_upper (n : nat) : string :=
  match get n "0123456789ABCDEF" with Some c => Str.char c | None => "" end.

(** [QuoteJSONString], one code unit. *)
Definition json_escape (c : ascii) : string :=
  let n := nat_of_ascii c in
  if (n =? 8)%nat then "\b"
  else if (n =? 9)%nat then "\t"
  else if (n =? 10)%nat then "\n"
  else if (n =? 12)%nat then "\f"
  else if (n =? 13)%nat then "\r"
  else if (n =? 34)%nat then "\" ++ Str.dquote
  else if (n =? 92)%nat then "\\"
  else if (n <? 32)%nat then "\u00" ++ hex_lower (n / 16) ++ hex_lower (n mod 16)
  else Str.char c.

Fixpoint json_escape_all (s : string) : string :=
  match s with
  | "" => ""
  | String c s' => json_escape c ++ json_escape_all s'
  end.

Definition json_quote (s : string) : string :=
  Str.dquote ++ json_escape_all s ++ Str.dquote.

(** [JSON.stringify(v)], without indentation. *)
Fixpoint JSON_stringify (v : json) : string :=
  match v with
  | JNull => "null"
  | JBool true => "true"
  | JBool false => "false"
  | JNum text => text
  | JStr s => json_quote s
  | JArr items =>
      "[" ++
      (fix elements (l : list json) : string :=
         match l with
         | [] => ""
         | x :: l' =>
             JSON_stringify x ++
             match l' with [] => "" | _ :: _ => "," ++ elements l' end
         end) items
      ++ "]"
  | JObj props =>
      "{" ++
      (fix members (l : list (string * json)) : string :=
         match l with
         | [] => ""
         | (k, x) :: l' =>
             json_quote k ++ ":" ++ JSON_stringify x ++
             match l' with [] => "" | _ :: _ => "," ++ members l' end
         end) props
      ++ "}"
  end.

(** An object literal some of whose properties may hold [undefined]:
    [JSON.stringify] leaves those out. *)
Fixpoint defined_props (fields : list (string * option json)) : list (string * json) :=
  match fields with
  | [] => []
  | (k, Some v) :: rest => (k, v) :: defined_props rest
  | (_, None) :: rest => defined_props rest
  end.

Definition stringify_literal (fields : list (string * option json)) : string :=
  JSON_stringify (JObj (defined_props fields)).

(* ================================================================= *)
(** ** [URLSearchParams.prototype.toString] *)

(** UTF-8 of a code unit below 256. *)
Definition utf8 (c : ascii) : list nat :=
  let n := nat_of_ascii c in
  if (n <? 128)%nat then [n] else [192 + n / 64; 128 + n mod 64].

(** The application/x-www-form-urlencoded byte serializer. *)
Definition urlencode_byte (n : nat) : string :=
  if (n =? 32)%nat then "+"
  else if Str.mem (ascii_of_nat n) "*-._" || RegExp.is_word_char (ascii_of_nat n)
  then Str.char (ascii_of_nat n)
  else "%" ++ hex_upper (n / 16) ++ hex_upper (n mod 16).

Fixpoint urlencode (s : string) : string :=
  match s with
  | "" => ""
  | String c s' => String.concat "" (map urlencode_byte (utf8 c)) ++ urlencode s'
  end.

Definition URLSearchParams_toString (params : list (string * string)) : string :=
  String.concat "&" (map (fun kv => urlencode (fst kv) ++ "=" ++ urlencode (snd kv)) params).

(* ================================================================= *)
(** ** Requests, responses, the platform *)

(** What the handlers read of a request: the method, the path and the query
    entries of its URL, and [headers.get('Cookie')]. *)
Record Request : Type := {
  method : string;
  pathname : string;
  searchParams : list (string * string);
  cookie : option string
}.

(** The environment variables the worker reads. *)
Record Env : Type := {
  ALLOWED_DOMAINS : option string;
  GITHUB_CLIENT_ID : option string;
  GITHUB_CLIENT_SECRET : option string;
  GITHUB_HOSTNAME : option string
}.

(** A response: [headers] are those the source hands to [new Response]; the
    [Content-Type] that the constructor adds by itself for a text body is not
    listed. *)
Record Response : Type := {
  status : nat;
  body : string;
  headers : list (string * string)
}.

(** The header of that name, when the response has one. *)
Fixpoint header (name : string) (hs : list (string * string)) : option string :=
  match hs with
  | [] => None
  | (k, v) :: rest => if k =? name then Some v else header name rest
  end.

(** The second argument of the outbound [fetch]. *)
Record RequestInit : Type := {
  init_method : string;
  init_headers : list (string * string);
  init_body : string
}.

(** What the worker reads of the response of the outbound [fetch]: the
    outcome of [response.json()], [None] when it rejects. *)
Record FetchResponse : Type := {
  response_json : option json
}.

(** A handler: it returns, or throws an exception that nothing catches, or
    calls the platform and goes on with the answer.  [fetch] answers [None]
    when it rejects. *)
Inductive io (A : Type) : Type :=
| Ret (a : A)
| Throw (exception : string)
| RandomUUID (k : string -> io A)
| Fetch (url : string) (init : RequestInit) (k : option FetchResponse -> io A).

Arguments Ret {A} a.
Arguments Throw {A} exception.
Arguments RandomUUID {A} k.
Arguments Fetch {A} url init k.

(** [produces t a]: [t] returns [a] for some answers of the platform. *)
Inductive produces {A : Type} : io A -> A -> Prop :=
| produces_ret : forall a, produces (Ret a) a
| produces_uuid : forall k uuid a, produces (k uuid) a -> produces (RandomUUID k) a
| produces_fetch : forall url init k answer a,
    produces (k answer) a -> produces (Fetch url init k) a.

(** [t] calls the outbound [fetch], at once or after other calls. *)
Inductive calls_fetch {A : Type} : io A -> Prop :=
| calls_fetch_here : forall url init k, calls_fetch (Fetch url init k)
| calls_fetch_uuid : forall k uuid, calls_fetch (k uuid) -> calls_fetch (RandomUUID k)
| calls_fetch_later : forall url init k answer,
    calls_fetch (k answer) -> calls_fetch (Fetch url init k).

(* ================================================================= *)
(** ** [new Response]: the header values

    The constructor removes the HTTP white space (TAB, LF, CR, SPACE) at both
    ends of every header value and throws a [TypeError] when what is left
    holds a NUL, a line feed or a carriage return.  The values of the renderer
    and of the 404 response are constants that pass; those of the redirect
    (lines 107-117) hold the configured hostname and the token. *)

Definition is_http_whitespace (c : ascii) : bool :=
  let n := nat_of_ascii c in
  ((n =? 9) || (n =? 10) || (n =? 13) || (n =? 32))%nat.

Fixpoint strip_start (s : string) : string :=
  match s with
  | "" => ""
  | String c s' => if is_http_whitespace c then strip_start s' else s
  end.

Fixpoint strip_end (s : string) : string :=
  match s with
  | "" => ""
  | String c s' =>
      match strip_end s' with
      | "" => if is_http_whitespace c then "" else Str.char c
      | String c' rest => String c (String c' rest)
      end
  end.

Definition normalize (value : string) : string := strip_end (strip_start value).

(** No NUL, no line feed, no carriage return. *)
Definition is_header_char (c : ascii) : bool :=
  let n := nat_of_ascii c in
  negb ((n =? 0) || (n =? 10) || (n =? 13))%nat.

Definition is_header_value (value : string) : bool := Str.all is_header_char value.

(** [new Response(body, { status, headers })]. *)
Definition new_Response (body : string) (status : nat) (headers : list (string * string))
  : io Response :=
  let normalized := map (fun kv => (fst kv, normalize (snd kv))) headers in
  if forallb (fun kv => is_header_value (snd kv)) normalized
  then Ret {| status := status; body := body; headers := normalized |}
  else Throw "TypeError".

(* ================================================================= *)
(** ** The response renderer (lines 19-53) *)

Record RenderArgs : Type := {
  provider : option string;
  token : option json;
  error : option json;
  errorCode : option string
}.

(** The template literal of lines 30-44. *)
Definition html (provider state content : string) : string :=
"
      <!doctype html><html><body><script>
        (() => {
          window.addEventListener('message', ({ data, origin }) => {
            if (data === 'authorizing:" ++ provider ++ "') {
              window.opener?.postMessage(
                'authorization:" ++ provider ++ ":" ++ state ++ ":" ++ content ++ "',
                origin
              );
            }
          });
          window.opener?.postMessage('authorizing:" ++ provider ++ "', '*" ++ "');
        })();
      </script></body></html>
    ".

(** Line 49. *)
Definition delete_cookie : string :=
  "csrf-token=deleted; HttpOnly; Max-Age=0; Path=/; SameSite=Lax; Secure".

Definition outputHTML (args : RenderArgs) : Response :=
  let provider := match provider args with Some p => p | None => "github" end in
  let state := if truthy (error args) then "error" else "success" in
  let content :=
    if truthy (error args)
    then [("provider", Some (JStr provider)); ("error", error args);
          ("errorCode", option_map JStr (errorCode args))]
    else [("provider", Some (JStr provider)); ("token", token args)] in
  {| status := 200;
     body := html provider state (stringify_literal content);
     headers := [("Content-Type", "text/html;charset=UTF-8");
                 ("Set-Cookie", delete_cookie)] |}.

(** [outputHTML({ error, errorCode })], as the handlers call it. *)
Definition error_page (message code : string) : Response :=
  outputHTML {| provider := None; token := None;
                error := Some (JStr message); errorCode := Some code |}.

(* ================================================================= *)
(** ** CSRF tokens *)

(** [[0-9a-f]]. *)
Definition is_hex_lower (c : ascii) : bool :=
  Str.between "0" "9" c || Str.between "a" "f" c.

(** Exactly 32 lowercase hexadecimal characters. *)
Definition is_hex32 (s : string) : bool :=
  (length s =? 32)%nat && Str.all is_hex_lower s.

Inductive slot : Type := Hex | Hyphen.

Fixpoint has_shape (shape : list slot) (s : string) : bool :=
  match shape, s with
  | [], "" => true
  | Hex :: shape', String c s' => is_hex_lower c && has_shape shape' s'
  | Hyphen :: shape', String c s' => Ascii.eqb c "-" && has_shape shape' s'
  | _, _ => false
  end.

Fixpoint hex_slots (shape : list slot) : nat :=
  match shape with
  | [] => 0
  | Hex :: shape' => S (hex_slots shape')
  | Hyphen :: shape' => hex_slots shape'
  end.

(** What the platform documents of [crypto.randomUUID()]: lowercase
    hexadecimal digits in groups of 8, 4, 4, 4 and 12, hyphens between. *)
Definition uuid_shape : list slot :=
  (repeat Hex 8 ++ Hyphen :: repeat Hex 4 ++ Hyphen :: repeat Hex 4
   ++ Hyphen :: repeat Hex 4 ++ Hyphen :: repeat Hex 12)%list.

Definition is_uuid (s : string) : bool := has_shape uuid_shape s.

(* ================================================================= *)
(** ** The authorization initiator (lines 61-118) *)

(** Lines 75-79: the allow-list is set, not empty, and no entry matches
    [domain ?? '']. *)
Definition domain_rejected (allowed : option string) (domain : option string) : bool :=
  match allowed with
  | Some list =>
      negb (list =? "") &&
      negb (existsb
              (fun str => domain_match str (match domain with Some d => d | None => "" end))
              (Str.split "," list))
  | None => false
  end.

(** [GITHUB_HOSTNAME = 'github.com']: the default stands in for [undefined]
    only. *)
Definition hostname_of (env : Env) : string :=
  match GITHUB_HOSTNAME env with Some h => h | None => "github.com" end.

(** Lines 91 and 158: [!GITHUB_CLIENT_ID || !GITHUB_CLIENT_SECRET]. *)
Definition misconfigured (env : Env) : bool :=
  negb (truthy_string (GITHUB_CLIENT_ID env)) || negb (truthy_string (GITHUB_CLIENT_SECRET env)).

(** Lines 113-115. *)
Definition set_cookie (csrfToken : string) : string :=
  "csrf-token=" ++ csrfToken ++ "; " ++ "HttpOnly; Path=/; Max-Age=600; SameSite=Lax; Secure".

(** Lines 98-104. *)
Definition authURL (env : Env) (csrfToken : string) : string :=
  "https://" ++ hostname_of env ++ "/login/oauth/authorize?" ++
  URLSearchParams_toString
    [("client_id", ToString (GITHUB_CLIENT_ID env)); ("scope", "repo,user");
     ("state", csrfToken)].

Definition handleAuth (request : Request) (env : Env) : io Response :=
  let domain := assoc_last "site_id" (searchParams request) in
  if domain_rejected (ALLOWED_DOMAINS env) domain then
    Ret (error_page "Your domain is not allowed to use the authenticator."
                    "UNSUPPORTED_DOMAIN")
  else
    RandomUUID (fun uuid =>
      let csrfToken := Str.replaceAll "-" "" uuid in
      if misconfigured env then
        Ret (error_page "OAuth app client ID or secret is not configured."
                        "MISCONFIGURED_CLIENT")
      else
        new_Response "" 302 [("Location", authURL env csrfToken);
                             ("Set-Cookie", set_cookie csrfToken)]).

(* ================================================================= *)
(** ** The callback handler (lines 126-206) *)

(** Line 132: [/\bcsrf-token=([0-9a-f]{32})\b/]. *)
Definition csrf_regex : RegExp.regex :=
  ([RegExp.WordB]
   ++ RegExp.literal "csrf-token="
   ++ [RegExp.GroupOpen;
       RegExp.Times 32 (RegExp.Ranges [("0", "9"); ("a", "f")]%char);
       RegExp.GroupClose;
       RegExp.WordB])%list.

(** Lines 131-132: group 1 of the match in the [Cookie] header. *)
Definition csrfToken_of (cookie : option string) : option string :=
  match cookie with
  | Some value =>
      match RegExp.exec csrf_regex value with
      | Some group1 => group1
      | None => None
      end
  | None => None
  end.

(** Lines 165-184: the arguments of the outbound call. *)
Definition tokenURL (env : Env) : string :=
  "https://" ++ hostname_of env ++ "/login/oauth/access_token".

Definition token_request (code : option string) (env : Env) : RequestInit :=
  {| init_method := "POST";
     init_headers := [("Accept", "application/json"); ("Content-Type", "application/json")];
     init_body := stringify_literal
                    [("code", option_map JStr code);
                     ("client_id", option_map JStr (GITHUB_CLIENT_ID env));
                     ("client_secret", option_map JStr (GITHUB_CLIENT_SECRET env))] |}.

(** Lines 189-205: what the handler does with the answer of the platform.
    Destructuring [null] throws inside the [try]. *)
Definition render_exchange (answer : option FetchResponse) : Response :=
  match answer with
  | None =>
      error_page "Failed to request an access token. Please try again later."
                 "TOKEN_REQUEST_FAILED"
  | Some response =>
      match response_json response with
      | None | Some JNull =>
          error_page "Server responded with malformed data. Please try again later."
                     "MALFORMED_RESPONSE"
      | Some parsed =>
          outputHTML {| provider := None;
                        token := get_property parsed "access_token";
                        error := get_property parsed "error";
                        errorCode := None |}
      end
  end.

Definition handleCallback (request : Request) (env : Env) : io Response :=
  let code := assoc_last "code" (searchParams request) in
  let state := assoc_last "state" (searchParams request) in
  let csrfToken := csrfToken_of (cookie request) in
  if negb (truthy_string code) || negb (truthy_string state) then
    Ret (error_page "Failed to receive an authorization code. Please try again later."
                    "AUTH_CODE_REQUEST_FAILED")
  else if negb (truthy_string csrfToken) || negb (strict_equal state csrfToken) then
    Ret (error_page "Potential CSRF attack detected. Authentication flow aborted."
                    "CSRF_DETECTED")
  else if misconfigured env then
    Ret (error_page "OAuth app client ID or secret is not configured."
                    "MISCONFIGURED_CLIENT")
  else
    Fetch (tokenURL env) (token_request code env)
          (fun answer => Ret (render_exchange answer)).

(* ================================================================= *)
(** ** The router (lines 217-230) *)

Definition includes (items : list string) (x : string) : bool :=
  existsb (fun item => item =? x) items.

Definition not_found : Response := {| status := 404; body := ""; headers := [] |}.

Definition fetch (request : Request) (env : Env) : io Response :=
  if (method request =? "GET") && includes ["/oauth"; "/oauth/authorize"] (pathname request)
  then handleAuth request env
  else if (method request =? "GET") && includes ["/callback"; "/oauth/redirect"] (pathname request)
  then handleCallback request env
  else Ret not_found.

(* ================================================================= *)
(** ** Classifying responses *)

(** The three kinds of responses of the worker. *)
Inductive response_kind (response : Response) : Prop :=
| kind_rendered : forall args, response = outputHTML args -> response_kind response
| kind_redirect : forall location csrfToken,
    response = {| status := 302; body := "";
                  headers := [("Location", location); ("Set-Cookie", set_cookie csrfToken)] |} ->
    response_kind response
| kind_not_found : response = not_found -> response_kind response.

(* ================================================================= *)
(** ** Sample requests *)

Definition sample_token : string := "0123456789ab4cde8f0123456789abcd".

Definition sample_uuid : string := "01234567-89ab-4cde-8f01-23456789abcd".

Definition sample_env : Env :=
  {| ALLOWED_DOMAINS := Some "*.example.com";
     GITHUB_CLIENT_ID := Some "Iv23liv25McWF48WFQOB";
     GITHUB_CLIENT_SECRET := Some "s3cret";
     GITHUB_HOSTNAME := None |}.

(** [GET /oauth?site_id=<domain>]. *)
Definition sample_auth (domain : string) : Request :=
  {| method := "GET"; pathname := "/oauth";
     searchParams := [("site_id", domain)]; cookie := None |}.

(** [GET /callback] with the given query and [Cookie] header. *)
Definition sample_callback (query : list (string * string)) (cookie : option string) : Request :=
  {| method := "GET"; pathname := "/callback"; searchParams := query; cookie := cookie |}.

(** The callback that follows a redirect issued with [sample_token]. *)
Definition sample_return : Request :=
  sample_callback [("code", "abc"); ("state", sample_token)]
                  (Some ("csrf-token=" ++ sample_token)).

(* ================================================================= *)
(** ** Further notions used in the properties *)

(** [env] with another [GITHUB_CLIENT_SECRET]. *)
Definition with_secret (env : Env) (secret : option string) : Env :=
  {| ALLOWED_DOMAINS := ALLOWED_DOMAINS env;
     GITHUB_CLIENT_ID := GITHUB_CLIENT_ID env;
     GITHUB_CLIENT_SECRET := secret;
     GITHUB_HOSTNAME := GITHUB_HOSTNAME env |}.

(** The value a handler returns when the platform answers [uuid] to
    [crypto.randomUUID()] and [answer] to the outbound [fetch]; [None] when it
    throws. *)
Fixpoint run {A : Type} (uuid : string) (answer : option FetchResponse) (t : io A)
  : option A :=
  match t with
  | Ret a => Some a
  | Throw _ => None
  | RandomUUID k => run uuid answer (k uuid)
  | Fetch _ _ k => run uuid answer (k answer)
  end.

(** [s] holds the text [pat]. *)
Fixpoint includes_text (pat s : string) : bool :=
  prefix pat s
  || match s with
     | "" => false
     | String _ s' => includes_text pat s'
     end.

(** The first [n] characters of [s]. *)
Fixpoint take (n : nat) (s : string) : string :=
  match n, s with
  | S n', String c s' => String c (take n' s')
  | _, _ => ""
  end.

(** [s] starts with 32 lowercase hexadecimal characters after which comes
    nothing, or a character that is no letter, digit or underscore. *)
Definition starts_with_token (s : string) : bool :=
  is_hex32 (take 32 s) && negb (RegExp.word_after (Str.drop 32 s)).

(** [sample_env] with a line feed at the end of the hostname. *)
Definition sample_env_line_feed : Env :=
  {| ALLOWED_DOMAINS := ALLOWED_DOMAINS sample_env;
     GITHUB_CLIENT_ID := GITHUB_CLIENT_ID sample_env;
     GITHUB_CLIENT_SECRET := GITHUB_CLIENT_SECRET sample_env;
     GITHUB_HOSTNAME := Some ("github.example.com" ++ Str.char (ascii_of_nat 10)) |}.

(** The character before the end of [s], [p] when [s] is empty. *)
Fixpoint last_char (p : option ascii) (s : string) : option ascii :=
  match s with
  | "" => p
  | String c s' => last_char (Some c) s'
  end.

(** The error codes of the worker. *)
Definition error_codes : list string :=
  ["UNSUPPORTED_DOMAIN"; "MISCONFIGURED_CLIENT"; "AUTH_CODE_REQUEST_FAILED";
   "CSRF_DETECTED"; "TOKEN_REQUEST_FAILED"; "MALFORMED_RESPONSE"].

(** The characters of a serialized query component: letters, digits, and
    [* - . _ % +]. *)
Definition is_query_safe (c : ascii) : bool :=
  RegExp.is_word_char c || Str.mem c "*-._%+".

(** The page of the error [code]. *)
Definition UNSUPPORTED_DOMAIN : Response :=
  error_page "Your domain is not allowed to use the authenticator." "UNSUPPORTED_DOMAIN".

Definition MISCONFIGURED_CLIENT : Response :=
  error_page "OAuth app client ID or secret is not configured." "MISCONFIGURED_CLIENT".

(* ================================================================= *)
(** * Properties *)

(** ** The router *)

Lemma includes_spec (items : list string) (x : string) :
  includes items x = true <-> In x items.
Proof.
  unfold includes. rewrite existsb_exists. split.
  - intros [item [Hin Heq]]. apply String.eqb_eq in Heq. now subst.
  - intros Hin. exists x. split; [assumption | apply String.eqb_refl].
Qed.

(** C8. [GET /oauth] and [GET /oauth/authorize] go to the authorization
    initiator, [GET /callback] and [GET /oauth/redirect] to the callback
    handler; any other method or path is answered with status 404 and an empty
    body. *)
Theorem router_dispatch (request : Request) (env : Env) :
  (method request = "GET" ->
   pathname request = "/oauth" \/ pathname request = "/oauth/authorize" ->
   fetch request env = handleAuth request env)
  /\ (method request = "GET" ->
      pathname request = "/callback" \/ pathname request = "/oauth/redirect" ->
      fetch request env = handleCallback request env)
  /\ (~ (method request = "GET"
         /\ In (pathname request)
               ["/oauth"; "/oauth/authorize"; "/callback"; "/oauth/redirect"]) ->
      fetch request env = Ret {| status := 404; body := ""; headers := [] |}).
Proof.
  unfold fetch. repeat split.
  - intros Hm Hp. rewrite Hm. destruct Hp as [-> | ->]; reflexivity.
  - intros Hm Hp. rewrite Hm. destruct Hp as [-> | ->]; reflexivity.
  - intros Hnot.
    destruct (method request =? "GET") eqn:Hm; [| reflexivity].
    apply String.eqb_eq in Hm.
    destruct (includes ["/oauth"; "/oauth/authorize"] (pathname request)) eqn:Ha.
    + apply includes_spec in Ha. exfalso. apply Hnot. split; [assumption |].
      simpl in *. tauto.
    + destruct (includes ["/callback"; "/oauth/redirect"] (pathname request)) eqn:Hc;
        [| reflexivity].
      apply includes_spec in Hc. exfalso. apply Hnot. split; [assumption |].
      simpl in *. tauto.
Qed.

(** ** The callback handler: its guards *)

(** C2. A callback whose [code] or [state] is missing (or empty) is answered
    with AUTH_CODE_REQUEST_FAILED whatever the [Cookie] header holds: the
    check comes before the CSRF check. *)
Theorem callback_missing_parameter (request : Request) (env : Env) :
  truthy_string (assoc_last "code" (searchParams request)) = false
  \/ truthy_string (assoc_last "state" (searchParams request)) = false ->
  handleCallback request env =
    Ret (outputHTML
           {| provider := None; token := None;
              error := Some (JStr "Failed to receive an authorization code. Please try again later.");
              errorCode := Some "AUTH_CODE_REQUEST_FAILED" |}).
Proof.
  intros H. unfold handleCallback.
  destruct H as [-> | ->]; [| rewrite orb_true_r]; reflexivity.
Qed.

Lemma strict_equal_spec (a b : option string) :
  strict_equal a b = true <-> a = b.
Proof.
  destruct a as [x |], b as [y |]; simpl; try (split; intros; congruence).
  rewrite String.eqb_eq. split; intros; congruence.
Qed.

(** The two outcomes of the CSRF check of a callback that carries [code] and
    [state]. *)
Lemma handleCallback_checked (request : Request) (env : Env) (code state : string) :
  assoc_last "code" (searchParams request) = Some code -> code <> "" ->
  assoc_last "state" (searchParams request) = Some state -> state <> "" ->
  handleCallback request env =
    if strict_equal (Some state) (csrfToken_of (cookie request))
    then if misconfigured env
         then Ret (error_page "OAuth app client ID or secret is not configured."
                              "MISCONFIGURED_CLIENT")
         else Fetch (tokenURL env) (token_request (Some code) env)
                    (fun answer => Ret (render_exchange answer))
    else Ret (error_page "Potential CSRF attack detected. Authentication flow aborted."
                         "CSRF_DETECTED").
Proof.
  intros Hcode Hc Hstate Hs.
  apply String.eqb_neq in Hc, Hs.
  assert (Hct : truthy_string (Some code) = true) by (simpl; now rewrite Hc).
  assert (Hst : truthy_string (Some state) = true) by (simpl; now rewrite Hs).
  unfold handleCallback. rewrite Hcode, Hstate, Hct, Hst. cbn [negb orb].
  destruct (csrfToken_of (cookie request)) as [csrfToken |]; [| reflexivity].
  destruct (strict_equal (Some state) (Some csrfToken)) eqn:Heq.
  - apply strict_equal_spec in Heq. injection Heq as <-. now rewrite Hst.
  - now rewrite orb_true_r.
Qed.

Lemma handleCallback_csrf (request : Request) (env : Env) (code state : string) :
  assoc_last "code" (searchParams request) = Some code -> code <> "" ->
  assoc_last "state" (searchParams request) = Some state -> state <> "" ->
  csrfToken_of (cookie request) <> Some state ->
  handleCallback request env =
    Ret (error_page "Potential CSRF attack detected. Authentication flow aborted."
                    "CSRF_DETECTED").
Proof.
  intros Hcode Hc Hstate Hs Hne.
  rewrite (handleCallback_checked request env code state) by assumption.
  destruct (strict_equal _ _) eqn:Heq; [| reflexivity].
  apply strict_equal_spec in Heq. congruence.
Qed.

(** C3. For a callback that carries [code] and [state], the outbound token
    request is made only if a token was extracted from the [Cookie] header and
    equals [state]; otherwise the answer is CSRF_DETECTED, whatever [code]
    is. *)
Theorem callback_csrf_check (request : Request) (env : Env) (code state : string) :
  assoc_last "code" (searchParams request) = Some code -> code <> "" ->
  assoc_last "state" (searchParams request) = Some state -> state <> "" ->
  (csrfToken_of (cookie request) <> Some state ->
   handleCallback request env =
     Ret (outputHTML
            {| provider := None; token := None;
               error := Some (JStr "Potential CSRF attack detected. Authentication flow aborted.");
               errorCode := Some "CSRF_DETECTED" |}))
  /\ (calls_fetch (handleCallback request env) ->
      csrfToken_of (cookie request) = Some state).
Proof.
  intros Hcode Hc Hstate Hs. split.
  - apply (handleCallback_csrf request env code state); assumption.
  - rewrite (handleCallback_checked request env code state) by assumption.
    destruct (strict_equal _ _) eqn:Heq.
    + apply strict_equal_spec in Heq. intros _. congruence.
    + intros Hcall. inversion Hcall.
Qed.

(** ** The authorization initiator: the allow-list guard *)

(** C5. When the allow-list is set and the requesting domain matches none of
    its entries, the answer is UNSUPPORTED_DOMAIN, with no [Location] header,
    whether or not the client id and secret are set. *)
Theorem unsupported_domain (request : Request) (env : Env) (allowed : string) :
  ALLOWED_DOMAINS env = Some allowed -> allowed <> "" ->
  (forall str, In str (Str.split "," allowed) ->
     domain_match str
       (match assoc_last "site_id" (searchParams request) with
        | Some d => d | None => "" end) = false) ->
  handleAuth request env =
    Ret (outputHTML
           {| provider := None; token := None;
              error := Some (JStr "Your domain is not allowed to use the authenticator.");
              errorCode := Some "UNSUPPORTED_DOMAIN" |})
  /\ forall response, produces (handleAuth request env) response ->
       header "Location" (headers response) = None /\ status response = 200.
Proof.
  intros Hallowed Hne Hnone.
  assert (Hrej : domain_rejected (ALLOWED_DOMAINS env)
                   (assoc_last "site_id" (searchParams request)) = true).
  { unfold domain_rejected. rewrite Hallowed.
    apply String.eqb_neq in Hne. rewrite Hne. simpl.
    apply negb_true_iff. apply not_true_is_false. intros Hex.
    apply existsb_exists in Hex. destruct Hex as [str [Hin Hm]].
    rewrite (Hnone str Hin) in Hm. discriminate. }
  unfold handleAuth. rewrite Hrej. split; [reflexivity |].
  intros response Hp. inversion Hp; subst. split; reflexivity.
Qed.

(** ** Strings *)

Lemma append_assoc (a b c : string) : (a ++ b) ++ c = a ++ b ++ c.
Proof. induction a as [| x a IH]; simpl; [reflexivity | now rewrite IH]. Qed.

Lemma append_nil_r (a : string) : a ++ "" = a.
Proof. induction a as [| x a IH]; simpl; [reflexivity | now rewrite IH]. Qed.

Lemma append_length (a b : string) : length (a ++ b) = length a + length b.
Proof. induction a as [| x a IH]; simpl; [reflexivity | now rewrite IH]. Qed.

Lemma append_inv_head (a b c : string) : a ++ b = a ++ c -> b = c.
Proof. induction a as [| x a IH]; simpl; intros H; [assumption |]. injection H. exact IH. Qed.

Lemma all_append (p : ascii -> bool) (a b : string) :
  Str.all p (a ++ b) = Str.all p a && Str.all p b.
Proof.
  induction a as [| x a IH]; simpl; [reflexivity |].
  rewrite IH. now rewrite andb_assoc.
Qed.

Lemma mem_false_neq (c x : ascii) (set : string) :
  Str.mem c set = false -> Str.mem x set = true -> Ascii.eqb c x = false.
Proof.
  intros Hc Hx. apply Ascii.eqb_neq. intros ->. congruence.
Qed.

(** The first wildcard of a text that has one. *)
Lemma first_wildcard (s : string) :
  Str.mem "*" s = true ->
  exists pre suf, s = pre ++ "*" ++ suf /\ Str.mem "*" pre = false.
Proof.
  induction s as [| c s IH]; cbn [Str.mem]; [discriminate |].
  destruct (Ascii.eqb "*" c) eqn:Hc; cbn [orb].
  - intros _. apply Ascii.eqb_eq in Hc. subst c. exists "", s. split; reflexivity.
  - intros H. destruct (IH H) as [pre [suf [-> Hpre]]].
    exists (String c pre), suf. split; [reflexivity |].
    cbn [Str.mem]. now rewrite Hc.
Qed.

(** ** The header values of the redirect *)

Lemma all_impl (p q : ascii -> bool) (s : string) :
  (forall c, p c = true -> q c = true) -> Str.all p s = true -> Str.all q s = true.
Proof.
  intros Hpq. induction s as [| c s IH]; cbn [Str.all]; [reflexivity |].
  intros H. apply andb_prop in H. destruct H as [Hc Hs].
  now rewrite (Hpq c Hc), (IH Hs).
Qed.

(** A text without white space at its end is left as it is. *)
Lemma strip_end_append (a b : string) :
  b <> "" -> strip_end b = b -> strip_end (a ++ b) = a ++ b.
Proof.
  intros Hne Hb. induction a as [| c a IH]; cbn [append strip_end]; [exact Hb |].
  rewrite IH. destruct (a ++ b) as [| c' rest] eqn:Hab; [| reflexivity].
  destruct a; [cbn [append] in Hab; congruence | discriminate Hab].
Qed.

Lemma strip_end_no_space (s : string) :
  Str.all (fun c => negb (is_http_whitespace c)) s = true -> strip_end s = s.
Proof.
  induction s as [| c s IH]; cbn [Str.all strip_end]; [reflexivity |].
  intros H. apply andb_prop in H. destruct H as [Hc Hs].
  rewrite (IH Hs). apply negb_true_iff in Hc. rewrite Hc. now destruct s.
Qed.

(** What the serializer writes is neither white space nor a character that a
    header value may not hold. *)
Lemma urlencode_char_plain (c : ascii) :
  Str.all (fun x => negb (is_http_whitespace x) && is_header_char x)
          (String.concat "" (map urlencode_byte (utf8 c))) = true.
Proof. destruct c as [[] [] [] [] [] [] [] []]; reflexivity. Qed.

Lemma urlencode_plain (s : string) :
  Str.all (fun x => negb (is_http_whitespace x) && is_header_char x) (urlencode s) = true.
Proof.
  induction s as [| c s IH]; cbn [urlencode]; [reflexivity |].
  now rewrite all_append, urlencode_char_plain, IH.
Qed.

Lemma urlencode_no_space (s : string) :
  Str.all (fun c => negb (is_http_whitespace c)) (urlencode s) = true.
Proof.
  apply (all_impl _ _ _ (fun c H => proj1 (andb_prop _ _ H)) (urlencode_plain s)).
Qed.

Lemma urlencode_header_value (s : string) : is_header_value (urlencode s) = true.
Proof.
  apply (all_impl _ _ _ (fun c H => proj2 (andb_prop _ _ H)) (urlencode_plain s)).
Qed.

(** The query of the authorization URL, written out. *)
Lemma authorize_query (client_id csrfToken : string) :
  URLSearchParams_toString
    [("client_id", client_id); ("scope", "repo,user"); ("state", csrfToken)]
  = "client_id=" ++ urlencode client_id ++ "&scope=repo%2Cuser&state=" ++ urlencode csrfToken.
Proof.
  unfold URLSearchParams_toString. cbn [map String.concat fst snd].
  change (urlencode "client_id") with "client_id".
  change (urlencode "scope") with "scope".
  change (urlencode "state") with "state".
  change (urlencode "repo,user") with "repo%2Cuser".
  now rewrite !append_assoc.
Qed.

(** [new Response] keeps the two header values of the redirect as they are:
    neither starts or ends with white space. *)
Lemma normalize_authURL (env : Env) (csrfToken : string) :
  normalize (authURL env csrfToken) = authURL env csrfToken.
Proof.
  unfold normalize, authURL. rewrite authorize_query.
  change (strip_start ("https://" ++ ?x)) with ("https://" ++ x).
  rewrite <- !append_assoc.
  rewrite ?append_assoc.
  apply strip_end_append; [destruct (hostname_of env); discriminate |].
  apply strip_end_append; [discriminate |].
  apply strip_end_no_space.
  rewrite !all_append, !urlencode_no_space. reflexivity.
Qed.

Lemma normalize_set_cookie (csrfToken : string) :
  normalize (set_cookie csrfToken) = set_cookie csrfToken.
Proof.
  unfold normalize, set_cookie.
  change (strip_start ("csrf-token=" ++ ?x)) with ("csrf-token=" ++ x).
  apply strip_end_append; [destruct csrfToken; discriminate |].
  apply strip_end_append; [discriminate | reflexivity].
Qed.

(** The [Location] passes when the hostname does, the [Set-Cookie] when the
    token does. *)
Lemma authURL_header_value (env : Env) (csrfToken : string) :
  is_header_value (authURL env csrfToken) = is_header_value (hostname_of env).
Proof.
  unfold authURL. rewrite authorize_query. unfold is_header_value.
  rewrite !all_append.
  fold (is_header_value (urlencode (ToString (GITHUB_CLIENT_ID env)))).
  fold (is_header_value (urlencode csrfToken)).
  rewrite !urlencode_header_value.
  repeat match goal with
         | |- context [Str.all is_header_char (String ?c ?r)] =>
             change (Str.all is_header_char (String c r)) with true
         end.
  cbn [andb]. now rewrite !andb_true_r.
Qed.

Lemma set_cookie_header_value (csrfToken : string) :
  is_header_value (set_cookie csrfToken) = is_header_value csrfToken.
Proof.
  unfold set_cookie, is_header_value. rewrite !all_append.
  repeat match goal with
         | |- context [Str.all is_header_char (String ?c ?r)] =>
             change (Str.all is_header_char (String c r)) with true
         end.
  cbn [andb]. now rewrite !andb_true_r.
Qed.

(** Lines 107-117: the redirect, or the [TypeError] of [new Response]. *)
Lemma redirect_response (env : Env) (csrfToken : string) :
  new_Response "" 302 [("Location", authURL env csrfToken);
                       ("Set-Cookie", set_cookie csrfToken)]
  = if is_header_value (hostname_of env) && is_header_value csrfToken
    then Ret {| status := 302; body := "";
                headers := [("Location", authURL env csrfToken);
                            ("Set-Cookie", set_cookie csrfToken)] |}
    else Throw "TypeError".
Proof.
  unfold new_Response. cbn [map forallb fst snd].
  rewrite normalize_authURL, normalize_set_cookie,
    authURL_header_value, set_cookie_header_value.
  now rewrite andb_true_r.
Qed.

Lemma hex_is_header_char (c : ascii) : is_hex_lower c = true -> is_header_char c = true.
Proof.
  destruct c as [[] [] [] [] [] [] [] []]; intros H;
    first [reflexivity | vm_compute in H; discriminate H].
Qed.

Lemma hex32_header_value (s : string) : is_hex32 s = true -> is_header_value s = true.
Proof.
  unfold is_hex32, is_header_value. intros H. apply andb_prop in H.
  apply (all_impl _ _ _ hex_is_header_char (proj2 H)).
Qed.

(** ** The responses and the CSRF cookie *)

Lemma outputHTML_headers (args : RenderArgs) :
  headers (outputHTML args) =
    [("Content-Type", "text/html;charset=UTF-8"); ("Set-Cookie", delete_cookie)].
Proof. reflexivity. Qed.

Lemma outputHTML_status (args : RenderArgs) : status (outputHTML args) = 200.
Proof. reflexivity. Qed.

Lemma handleAuth_kinds (request : Request) (env : Env) (response : Response) :
  produces (handleAuth request env) response -> response_kind response.
Proof.
  unfold handleAuth. intros H.
  destruct (domain_rejected _ _).
  - inversion H; subst. eapply kind_rendered. reflexivity.
  - inversion H as [| k uuid a Hk |]; subst.
    destruct (misconfigured env); [inversion Hk; subst; eapply kind_rendered; reflexivity |].
    rewrite redirect_response in Hk.
    destruct (_ && _); inversion Hk; subst.
    eapply kind_redirect. reflexivity.
Qed.

Lemma render_exchange_rendered (answer : option FetchResponse) :
  exists args, render_exchange answer = outputHTML args.
Proof.
  unfold render_exchange, error_page.
  destruct answer as [response |]; [| eexists; reflexivity].
  destruct (response_json response) as [[] |]; eexists; reflexivity.
Qed.

Lemma handleCallback_kinds (request : Request) (env : Env) (response : Response) :
  produces (handleCallback request env) response -> exists args, response = outputHTML args.
Proof.
  unfold handleCallback, error_page. intros H.
  repeat match type of H with
         | produces (if ?b then _ else _) _ => destruct b
         end;
    try (inversion H; subst; eexists; reflexivity).
  inversion H as [| | url init k answer a Hk]; subst.
  inversion Hk; subst. apply render_exchange_rendered.
Qed.

Lemma fetch_kinds (request : Request) (env : Env) (response : Response) :
  produces (fetch request env) response -> response_kind response.
Proof.
  unfold fetch. intros H.
  destruct (_ && _).
  - eapply handleAuth_kinds; eassumption.
  - destruct (_ && _).
    + apply handleCallback_kinds in H. destruct H as [args ->].
      eapply kind_rendered. reflexivity.
    + inversion H; subst. apply kind_not_found. reflexivity.
Qed.

(** C4, as amended.  Every response built by the response renderer (every
    error page and the page that ends a callback) deletes the [csrf-token]
    cookie with [Max-Age=0].  The two other responses do not: the 302 redirect
    of the authorization initiator sets the cookie to the new token with
    [Max-Age=600], and the 404 response has no [Set-Cookie] header. *)
Theorem set_cookie_of_every_response (request : Request) (env : Env) (response : Response) :
  produces (fetch request env) response ->
  (status response = 200
   /\ header "Set-Cookie" (headers response) = Some delete_cookie)
  \/ (status response = 302
      /\ exists csrfToken,
           header "Set-Cookie" (headers response) =
             Some ("csrf-token=" ++ csrfToken
                   ++ "; HttpOnly; Path=/; Max-Age=600; SameSite=Lax; Secure"))
  \/ (status response = 404
      /\ header "Set-Cookie" (headers response) = None).
Proof.
  intros H. apply fetch_kinds in H.
  destruct H as [args -> | location csrfToken -> | ->].
  - left. split; reflexivity.
  - right. left. split; [reflexivity |]. exists csrfToken. reflexivity.
  - right. right. split; reflexivity.
Qed.

(** ** The callback handler: the token exchange *)

(** A callback that passes the parameter, CSRF and configuration checks makes
    the outbound request and renders its outcome. *)
Lemma handleCallback_exchange (request : Request) (env : Env) (code state : string) :
  assoc_last "code" (searchParams request) = Some code -> code <> "" ->
  assoc_last "state" (searchParams request) = Some state -> state <> "" ->
  csrfToken_of (cookie request) = Some state ->
  misconfigured env = false ->
  handleCallback request env =
    Fetch (tokenURL env) (token_request (Some code) env)
          (fun answer => Ret (render_exchange answer)).
Proof.
  intros Hcode Hc Hstate Hs Htoken Hconf.
  rewrite (handleCallback_checked request env code state) by assumption.
  rewrite Htoken, Hconf.
  assert (Heq : strict_equal (Some state) (Some state) = true)
    by (now apply strict_equal_spec).
  now rewrite Heq.
Qed.

(** C7, as amended.  For a callback that passes the parameter and CSRF checks
    with the credentials configured: no response of the outbound request gives
    TOKEN_REQUEST_FAILED; a body that cannot be parsed as JSON, or that parses
    to [null], gives MALFORMED_RESPONSE; any other parsed body has its
    [access_token] and [error] properties passed as they are to the renderer,
    with no [errorCode], so that an error reported by the provider is rendered
    as [{provider, error}] alone. *)
Theorem token_exchange_outcomes (request : Request) (env : Env) (code state : string) :
  assoc_last "code" (searchParams request) = Some code -> code <> "" ->
  assoc_last "state" (searchParams request) = Some state -> state <> "" ->
  csrfToken_of (cookie request) = Some state ->
  misconfigured env = false ->
  exists k,
    handleCallback request env = Fetch (tokenURL env) (token_request (Some code) env) k
    /\ k None =
         Ret (outputHTML
                {| provider := None; token := None;
                   error := Some (JStr "Failed to request an access token. Please try again later.");
                   errorCode := Some "TOKEN_REQUEST_FAILED" |})
    /\ (forall response,
          response_json response = None \/ response_json response = Some JNull ->
          k (Some response) =
            Ret (outputHTML
                   {| provider := None; token := None;
                      error := Some (JStr "Server responded with malformed data. Please try again later.");
                      errorCode := Some "MALFORMED_RESPONSE" |}))
    /\ (forall response parsed,
          response_json response = Some parsed -> parsed <> JNull ->
          k (Some response) =
            Ret (outputHTML
                   {| provider := None;
                      token := get_property parsed "access_token";
                      error := get_property parsed "error";
                      errorCode := None |})
          /\ forall reported,
               get_property parsed "error" = Some reported ->
               truthy (Some reported) = true ->
               k (Some response) =
                 Ret {| status := 200;
                        body := html "github" "error"
                                  (JSON_stringify
                                     (JObj [("provider", JStr "github"); ("error", reported)]));
                        headers := [("Content-Type", "text/html;charset=UTF-8");
                                    ("Set-Cookie", delete_cookie)] |}).
Proof.
  intros Hcode Hc Hstate Hs Htoken Hconf.
  eexists. split; [apply (handleCallback_exchange _ _ code state); assumption |].
  cbn beta. split; [reflexivity |]. split.
  - intros response [H | H]; unfold render_exchange; rewrite H; reflexivity.
  - intros response parsed Hjson Hnot.
    assert (Hr : render_exchange (Some response) =
                 outputHTML {| provider := None;
                               token := get_property parsed "access_token";
                               error := get_property parsed "error";
                               errorCode := None |}).
    { unfold render_exchange. rewrite Hjson. destruct parsed; congruence. }
    rewrite Hr. split; [reflexivity |].
    intros reported Herr Htruthy. unfold outputHTML. cbn [error provider errorCode token].
    rewrite Herr, Htruthy. reflexivity.
Qed.

(** C9, as amended.  When the parsed body of the token response is not [null],
    has no [access_token] property and no truthy [error] property, the page
    carries the success message whose payload is the provider alone. *)
Theorem exchange_without_token
    (request : Request) (env : Env) (code state : string)
    (response : FetchResponse) (parsed : json) :
  assoc_last "code" (searchParams request) = Some code -> code <> "" ->
  assoc_last "state" (searchParams request) = Some state -> state <> "" ->
  csrfToken_of (cookie request) = Some state ->
  misconfigured env = false ->
  response_json response = Some parsed -> parsed <> JNull ->
  get_property parsed "access_token" = None ->
  truthy (get_property parsed "error") = false ->
  exists url init k,
    handleCallback request env = Fetch url init k
    /\ k (Some response) =
         Ret {| status := 200;
                body := html "github" "success"
                          ("{" ++ Str.dquote ++ "provider" ++ Str.dquote ++ ":"
                           ++ Str.dquote ++ "github" ++ Str.dquote ++ "}");
                headers := [("Content-Type", "text/html;charset=UTF-8");
                            ("Set-Cookie", delete_cookie)] |}.
Proof.
  intros Hcode Hc Hstate Hs Htoken Hconf Hjson Hnot Hnotoken Hnoerror.
  do 3 eexists. split; [apply (handleCallback_exchange _ _ code state); assumption |].
  cbn beta. unfold render_exchange. rewrite Hjson.
  assert (Hr : outputHTML {| provider := None;
                             token := get_property parsed "access_token";
                             error := get_property parsed "error";
                             errorCode := None |} =
               {| status := 200;
                  body := html "github" "success"
                            ("{" ++ Str.dquote ++ "provider" ++ Str.dquote ++ ":"
                             ++ Str.dquote ++ "github" ++ Str.dquote ++ "}");
                  headers := [("Content-Type", "text/html;charset=UTF-8");
                              ("Set-Cookie", delete_cookie)] |}).
  { unfold outputHTML. cbn [error provider errorCode token].
    rewrite Hnoerror, Hnotoken. reflexivity. }
  destruct parsed; try (rewrite <- Hr; reflexivity). congruence.
Qed.

(** ** Building the pattern of an allow-list entry *)

Lemma escape_class_syntax (c : ascii) :
  Str.mem c escapeRegExp_class = Str.mem c RegExp.syntax_chars.
Proof. destruct c as [[] [] [] [] [] [] [] []]; reflexivity. Qed.

Lemma escapeRegExp_append (a b : string) :
  escapeRegExp (a ++ b) = escapeRegExp a ++ escapeRegExp b.
Proof.
  induction a as [| c a IH]; cbn [append escapeRegExp]; [reflexivity |].
  destruct (Str.mem c escapeRegExp_class); cbn [append]; now rewrite IH.
Qed.

(** An escaped text never starts with a bare special character. *)
Lemma escaped_head (q : ascii) (s rest : string) :
  Str.mem q escapeRegExp_class = true -> q <> "\"%char ->
  Str.head_is q rest = false ->
  Str.head_is q (escapeRegExp s ++ rest) = false.
Proof.
  intros Hq Hnot Hrest. destruct s as [| c s]; cbn [escapeRegExp append]; [assumption |].
  destruct (Str.mem c escapeRegExp_class) eqn:Hc; cbn [append Str.head_is].
  - apply Ascii.eqb_neq. congruence.
  - eapply mem_false_neq; eassumption.
Qed.

Lemma replace_skip (c : ascii) (s rep : string) :
  c <> "\"%char \/ Str.head_is "*" s = false ->
  Str.replace "\*" rep (String c s) = String c (Str.replace "\*" rep s).
Proof.
  intros H.
  assert (Hp : prefix "\*" (String c s) = false).
  { cbn [prefix]. destruct (ascii_dec "\" c) as [Heq | Hneq]; [| reflexivity].
    destruct H as [H | H]; [congruence |].
    destruct s as [| b s]; [reflexivity |].
    cbn [prefix]. destruct (ascii_dec "*" b) as [Hb | Hb]; [| reflexivity].
    subst b. discriminate H. }
  cbn [Str.replace]. rewrite Hp. reflexivity.
Qed.

(** [replace] finds nothing to rewrite in an escaped text without wildcard. *)
Lemma replace_after_escaped (pre tail tail' : string) :
  Str.mem "*" pre = false ->
  Str.head_is "*" tail = false ->
  Str.replace "\*" ".+" tail = tail' ->
  Str.replace "\*" ".+" (escapeRegExp pre ++ tail) = escapeRegExp pre ++ tail'.
Proof.
  intros Hpre Htail Hrep. induction pre as [| c pre IH]; [exact Hrep |].
  cbn [Str.mem] in Hpre. apply orb_false_elim in Hpre. destruct Hpre as [Hc Hpre].
  specialize (IH Hpre).
  assert (Hstar : Str.head_is "*" (escapeRegExp pre ++ tail) = false)
    by (apply escaped_head; [reflexivity | discriminate | assumption]).
  cbn [escapeRegExp]. destruct (Str.mem c escapeRegExp_class) eqn:Hclass.
  - cbn [append]. rewrite replace_skip.
    + rewrite replace_skip by (right; exact Hstar). now rewrite IH.
    + right. cbn [Str.head_is]. rewrite Ascii.eqb_sym. exact Hc.
  - cbn [append]. rewrite replace_skip.
    + now rewrite IH.
    + left. intros ->. discriminate.
Qed.

(** [replace] rewrites the backslash and star that escape the first wildcard,
    and nothing else. *)
Lemma replace_first_wildcard (pre rest : string) :
  Str.mem "*" pre = false ->
  Str.replace "\*" ".+" (escapeRegExp pre ++ "\*" ++ rest) = escapeRegExp pre ++ ".+" ++ rest.
Proof.
  intros Hpre. apply replace_after_escaped; [assumption | reflexivity |].
  destruct rest; reflexivity.
Qed.

(** One step of the parser. *)
Lemma parse_cons (c : ascii) (s1 : string) :
  RegExp.parse (String c s1) =
    if Ascii.eqb c "^" then option_map (cons RegExp.Bol) (RegExp.parse s1)
    else if Ascii.eqb c "$" then option_map (cons RegExp.Eol) (RegExp.parse s1)
    else if Ascii.eqb c "\" then
      match s1 with
      | "" => None
      | String e s2 =>
          if Str.mem e RegExp.syntax_chars then
            match s2 with
            | "" => Some [RegExp.One (RegExp.Chr e)]
            | String q s3 =>
                if Ascii.eqb q "+"
                then option_map (cons (RegExp.Plus (RegExp.Chr e))) (RegExp.parse s3)
                else option_map (cons (RegExp.One (RegExp.Chr e))) (RegExp.parse s2)
            end
          else None
      end
    else if Ascii.eqb c "." || negb (Str.mem c RegExp.syntax_chars) then
      let cs := if Ascii.eqb c "." then RegExp.Dot else RegExp.Chr c in
      match s1 with
      | "" => Some [RegExp.One cs]
      | String q s2 =>
          if Ascii.eqb q "+" then option_map (cons (RegExp.Plus cs)) (RegExp.parse s2)
          else option_map (cons (RegExp.One cs)) (RegExp.parse s1)
      end
    else None.
Proof. reflexivity. Qed.

Lemma parse_escaped_char (c : ascii) (s : string) :
  Str.mem c RegExp.syntax_chars = true -> Str.head_is "+" s = false ->
  RegExp.parse (String "\" (String c s)) =
    option_map (cons (RegExp.One (RegExp.Chr c))) (RegExp.parse s).
Proof.
  intros Hc Hs. rewrite parse_cons.
  change (Ascii.eqb "\" "^") with false. change (Ascii.eqb "\" "$") with false.
  change (Ascii.eqb "\" "\") with true. cbv iota. rewrite Hc.
  destruct s as [| q s]; [reflexivity |].
  cbn [Str.head_is] in Hs. rewrite Hs. reflexivity.
Qed.

Lemma parse_plain_char (c : ascii) (s : string) :
  Str.mem c RegExp.syntax_chars = false -> Str.head_is "+" s = false ->
  RegExp.parse (String c s) =
    option_map (cons (RegExp.One (RegExp.Chr c))) (RegExp.parse s).
Proof.
  intros Hc Hs. rewrite parse_cons.
  rewrite (mem_false_neq c "^" _ Hc eq_refl), (mem_false_neq c "$" _ Hc eq_refl),
    (mem_false_neq c "\" _ Hc eq_refl), (mem_false_neq c "." _ Hc eq_refl), Hc.
  cbn [negb orb]. cbv iota zeta.
  destruct s as [| q s]; [reflexivity |].
  cbn [Str.head_is] in Hs. rewrite Hs. reflexivity.
Qed.

(** The pattern of an escaped text is the text, character by character. *)
Lemma parse_escaped (s rest : string) (r : RegExp.regex) :
  RegExp.parse rest = Some r -> Str.head_is "+" rest = false ->
  RegExp.parse (escapeRegExp s ++ rest) = Some (RegExp.literal s ++ r)%list.
Proof.
  intros Hrest Hplus. induction s as [| c s IH]; [exact Hrest |].
  assert (Hhead : Str.head_is "+" (escapeRegExp s ++ rest) = false)
    by (apply escaped_head; [reflexivity | discriminate | assumption]).
  cbn [escapeRegExp RegExp.literal app].
  destruct (Str.mem c escapeRegExp_class) eqn:Hclass; cbn [append].
  - rewrite parse_escaped_char; [now rewrite IH | | assumption].
    now rewrite <- escape_class_syntax.
  - rewrite parse_plain_char; [now rewrite IH | | assumption].
    now rewrite <- escape_class_syntax.
Qed.

(** The pattern built for an entry with a wildcard: its source and what
    [new RegExp] makes of it. *)
Lemma domain_pattern_wildcard (str pre suf : string) :
  Str.trim str = pre ++ "*" ++ suf -> Str.mem "*" pre = false ->
  domain_pattern str = "^" ++ escapeRegExp pre ++ ".+" ++ escapeRegExp suf ++ "$"
  /\ RegExp.parse (domain_pattern str) =
       Some (RegExp.Bol :: RegExp.literal pre
             ++ RegExp.Plus RegExp.Dot :: RegExp.literal suf ++ [RegExp.Eol])%list.
Proof.
  intros Htrim Hpre.
  assert (Hsrc : domain_pattern str =
                 "^" ++ escapeRegExp pre ++ ".+" ++ escapeRegExp suf ++ "$").
  { unfold domain_pattern. rewrite Htrim, escapeRegExp_append.
    change (escapeRegExp ("*" ++ suf)) with ("\*" ++ escapeRegExp suf).
    rewrite replace_first_wildcard by assumption.
    now rewrite !append_assoc. }
  split; [exact Hsrc |]. rewrite Hsrc.
  change ("^" ++ escapeRegExp pre ++ ".+" ++ escapeRegExp suf ++ "$")
    with (String "^" (escapeRegExp pre ++ ".+" ++ escapeRegExp suf ++ "$")).
  rewrite parse_cons. change (Ascii.eqb "^" "^") with true. cbv iota.
  rewrite (parse_escaped pre _ (RegExp.Plus RegExp.Dot :: RegExp.literal suf ++ [RegExp.Eol])%list);
    [reflexivity | | reflexivity].
  change (".+" ++ escapeRegExp suf ++ "$")
    with (String "." (String "+" (escapeRegExp suf ++ "$"))).
  rewrite parse_cons.
  change (Ascii.eqb "." "^") with false. change (Ascii.eqb "." "$") with false.
  change (Ascii.eqb "." "\") with false. change (Ascii.eqb "." ".") with true.
  change (Ascii.eqb "+" "+") with true. cbn [orb]. cbv iota zeta.
  rewrite (parse_escaped suf "$" [RegExp.Eol]); reflexivity.
Qed.

(** ** The matcher *)

Section MatcherFacts.
Context {R : Type}.
Implicit Types (k : @RegExp.cont R) (x : RegExp.ctx) (s : string) (r : RegExp.regex).

Lemma steps_append x (a b : string) :
  RegExp.steps x (a ++ b) = RegExp.steps (RegExp.steps x a) b.
Proof.
  revert x. induction a as [| c a IH]; intros x; cbn [append RegExp.steps];
    [reflexivity | apply IH].
Qed.

(** A literal text consumes itself. *)
Lemma m_literal_app (text : string) r k x s :
  RegExp.m (RegExp.literal text ++ r)%list k x (text ++ s) = RegExp.m r k (RegExp.steps x text) s.
Proof.
  revert x. induction text as [| c text IH]; intros x; [reflexivity |].
  cbn [RegExp.literal app append RegExp.m RegExp.cset_mem RegExp.steps].
  rewrite Ascii.eqb_refl. apply IH.
Qed.

(** A literal text matches nothing but itself. *)
Lemma m_literal_inv (text : string) r k x s (v : R) :
  RegExp.m (RegExp.literal text ++ r)%list k x s = Some v -> exists s', s = text ++ s'.
Proof.
  revert x s. induction text as [| c text IH]; intros x s H; [now exists s |].
  cbn [RegExp.literal app RegExp.m RegExp.cset_mem] in H.
  destruct s as [| c' s]; [discriminate |].
  destruct (Ascii.eqb c' c) eqn:Hc; [| discriminate].
  apply Ascii.eqb_eq in Hc. subst c'.
  destruct (IH _ _ H) as [s' ->]. now exists s'.
Qed.

(** What [cs+] matched, when the match went through. *)
Lemma m_plus_sound (cs : RegExp.cset) k x s (v : R) :
  RegExp.m_plus cs k x s = Some v ->
  exists mid s', s = mid ++ s' /\ mid <> ""
                 /\ Str.all (RegExp.cset_mem cs) mid = true
                 /\ k (RegExp.steps x mid) s' = Some v.
Proof.
  revert x. induction s as [| c s IH]; intros x H; cbn [RegExp.m_plus] in H;
    [discriminate |].
  destruct (RegExp.cset_mem cs c) eqn:Hc; [| discriminate].
  destruct (RegExp.m_plus cs k (RegExp.step x c) s) as [v' |] eqn:Hrec.
  - injection H as ->.
    destruct (IH _ Hrec) as [mid [s' [-> [_ [Hall Hk]]]]].
    exists (String c mid), s'. cbn [append Str.all RegExp.steps]. rewrite Hc, Hall.
    repeat split; [discriminate | assumption].
  - exists (Str.char c), s. cbn. rewrite Hc. repeat split; [discriminate | assumption].
Qed.

(** [cs+] finds a match whenever some non-empty run of [cs] lets the rest of
    the pattern match. *)
Lemma m_plus_complete (cs : RegExp.cset) k x (mid s' : string) :
  mid <> "" -> Str.all (RegExp.cset_mem cs) mid = true ->
  k (RegExp.steps x mid) s' <> None ->
  RegExp.m_plus cs k x (mid ++ s') <> None.
Proof.
  revert x. induction mid as [| c mid IH]; intros x Hne Hall Hk; [congruence |].
  cbn [Str.all] in Hall. apply andb_prop in Hall. destruct Hall as [Hc Hall].
  cbn [append RegExp.m_plus RegExp.steps] in *. rewrite Hc.
  destruct mid as [| c' mid].
  - cbn [append RegExp.steps] in *.
    destruct (RegExp.m_plus cs k (RegExp.step x c) s'); [discriminate | assumption].
  - specialize (IH (RegExp.step x c)).
    destruct (RegExp.m_plus cs k (RegExp.step x c) (String c' mid ++ s'));
      [discriminate |].
    exfalso. apply IH; [discriminate | assumption | assumption | reflexivity].
Qed.

(** What [cs{n}] matched. *)
Lemma m_times_sound (n : nat) (cs : RegExp.cset) k x s (v : R) :
  RegExp.m_times n cs k x s = Some v ->
  exists run s', s = run ++ s' /\ length run = n
                 /\ Str.all (RegExp.cset_mem cs) run = true
                 /\ k (RegExp.steps x run) s' = Some v.
Proof.
  revert x s. induction n as [| n IH]; intros x s H; cbn [RegExp.m_times] in H.
  - exists "", s. repeat split. assumption.
  - destruct s as [| c s]; [discriminate |].
    destruct (RegExp.cset_mem cs c) eqn:Hc; [| discriminate].
    destruct (IH _ _ H) as [run [s' [-> [Hlen [Hall Hk]]]]].
    exists (String c run), s'. cbn [append length Str.all RegExp.steps].
    rewrite Hc, Hall, Hlen. repeat split. assumption.
Qed.

End MatcherFacts.

Lemma steps_captured (x : RegExp.ctx) (s : string) :
  RegExp.captured (RegExp.steps x s) = RegExp.captured x.
Proof.
  revert x. induction s as [| c s IH]; intros x; cbn [RegExp.steps]; [reflexivity |].
  now rewrite IH.
Qed.

Lemma steps_opened (x : RegExp.ctx) (s : string) :
  RegExp.opened (RegExp.steps x s) = option_map (fun g => g ++ s) (RegExp.opened x).
Proof.
  revert x. induction s as [| c s IH]; intros x; cbn [RegExp.steps].
  - destruct (RegExp.opened x); cbn; [now rewrite append_nil_r | reflexivity].
  - rewrite IH. cbn [RegExp.step RegExp.opened].
    destruct (RegExp.opened x); cbn [option_map]; [| reflexivity].
    now rewrite append_assoc.
Qed.

(** A pattern that starts with [^] matches at the start of the input only. *)
Lemma search_anchored (r : RegExp.regex) (c : ascii) (s : string) :
  RegExp.search (RegExp.Bol :: r) (Some c) s = None.
Proof.
  revert c. induction s as [| c' s IH]; intros c; cbn [RegExp.search RegExp.m RegExp.start RegExp.prev];
    [reflexivity | apply IH].
Qed.

Lemma exec_anchored (r : RegExp.regex) (s : string) :
  RegExp.exec (RegExp.Bol :: r) s = RegExp.m r RegExp.accept (RegExp.start None) s.
Proof.
  unfold RegExp.exec. destruct s as [| c s]; cbn [RegExp.search RegExp.m RegExp.start RegExp.prev].
  - now destruct (RegExp.m r RegExp.accept _ "").
  - destruct (RegExp.m r RegExp.accept _ (String c s)); [reflexivity |].
    apply search_anchored.
Qed.

(** The pattern [^pre.+suf$], [pre] and [suf] taken literally: it matches the
    texts that put a non-empty run without line terminator between [pre] and
    [suf]. *)
Lemma wildcard_regex_matches (pre suf domain : string) :
  RegExp.exec (RegExp.Bol :: RegExp.literal pre
               ++ RegExp.Plus RegExp.Dot :: RegExp.literal suf ++ [RegExp.Eol])%list domain
    <> None
  <-> exists mid, mid <> ""
                  /\ Str.all (fun c => negb (RegExp.is_line_terminator c)) mid = true
                  /\ domain = pre ++ mid ++ suf.
Proof.
  rewrite exec_anchored. split.
  - intros H.
    destruct (RegExp.m _ RegExp.accept (RegExp.start None) domain) as [v |] eqn:Hm;
      [clear H | congruence].
    destruct (m_literal_inv _ _ _ _ _ _ Hm) as [s1 ->].
    rewrite m_literal_app in Hm. cbn [RegExp.m] in Hm.
    apply m_plus_sound in Hm. destruct Hm as [mid [s2 [-> [Hne [Hall Hm]]]]].
    destruct (m_literal_inv _ _ _ _ _ _ Hm) as [s3 ->].
    rewrite m_literal_app in Hm. cbn [RegExp.m] in Hm.
    destruct s3; [| discriminate].
    exists mid. rewrite append_nil_r. repeat split; assumption.
  - intros [mid [Hne [Hall ->]]].
    rewrite m_literal_app. cbn [RegExp.m].
    apply m_plus_complete; [assumption | exact Hall |].
    rewrite <- (append_nil_r suf) at 2. rewrite m_literal_app. discriminate.
Qed.

Lemma domain_match_wildcard (str pre suf domain : string) :
  Str.trim str = pre ++ "*" ++ suf -> Str.mem "*" pre = false ->
  domain_match str domain = true
  <-> exists mid, mid <> ""
                  /\ Str.all (fun c => negb (RegExp.is_line_terminator c)) mid = true
                  /\ domain = pre ++ mid ++ suf.
Proof.
  intros Htrim Hpre.
  destruct (domain_pattern_wildcard str pre suf Htrim Hpre) as [_ Hparse].
  rewrite <- wildcard_regex_matches.
  unfold domain_match. rewrite Hparse.
  destruct (RegExp.exec _ domain); split; intros H; congruence.
Qed.

(** The pattern built for an entry without wildcard. *)
Lemma domain_pattern_literal (str : string) :
  Str.mem "*" (Str.trim str) = false ->
  domain_pattern str = "^" ++ escapeRegExp (Str.trim str) ++ "$"
  /\ RegExp.parse (domain_pattern str) =
       Some (RegExp.Bol :: RegExp.literal (Str.trim str) ++ [RegExp.Eol])%list.
Proof.
  intros Hno.
  assert (Hsrc : domain_pattern str = "^" ++ escapeRegExp (Str.trim str) ++ "$").
  { unfold domain_pattern.
    rewrite <- (append_nil_r (escapeRegExp (Str.trim str))) at 1.
    rewrite (replace_after_escaped _ "" "" Hno eq_refl eq_refl).
    now rewrite append_nil_r. }
  split; [exact Hsrc |]. rewrite Hsrc.
  change ("^" ++ escapeRegExp (Str.trim str) ++ "$")
    with (String "^" (escapeRegExp (Str.trim str) ++ "$")).
  rewrite parse_cons. change (Ascii.eqb "^" "^") with true. cbv iota.
  rewrite (parse_escaped _ "$" [RegExp.Eol]); reflexivity.
Qed.

(** [new RegExp] accepts every pattern the initiator builds. *)
Lemma domain_pattern_parses (str : string) : RegExp.parse (domain_pattern str) <> None.
Proof.
  destruct (Str.mem "*" (Str.trim str)) eqn:Hstar.
  - destruct (first_wildcard _ Hstar) as [pre [suf [Htrim Hpre]]].
    destruct (domain_pattern_wildcard str pre suf Htrim Hpre) as [_ ->]. discriminate.
  - destruct (domain_pattern_literal str Hstar) as [_ ->]. discriminate.
Qed.

(** An entry without wildcard matches itself, trimmed, and nothing else. *)
Lemma domain_match_literal (str domain : string) :
  Str.mem "*" (Str.trim str) = false ->
  domain_match str domain = true <-> domain = Str.trim str.
Proof.
  intros Hno. destruct (domain_pattern_literal str Hno) as [_ Hparse].
  unfold domain_match. rewrite Hparse, exec_anchored. split.
  - destruct (RegExp.m _ RegExp.accept (RegExp.start None) domain) as [v |] eqn:Hm;
      [intros _ | discriminate].
    destruct (m_literal_inv _ _ _ _ _ _ Hm) as [rest ->].
    rewrite m_literal_app in Hm. cbn [RegExp.m] in Hm.
    destruct rest; [apply append_nil_r | discriminate].
  - intros ->. rewrite <- (append_nil_r (Str.trim str)) at 2.
    now rewrite m_literal_app.
Qed.

(** C1. An allow-list entry with a wildcard is matched as follows: the entry
    is trimmed, every special character of it is escaped, the escape of its
    first wildcard, and of that one only, is replaced by [.+], and the result
    is matched against the whole domain, between [^] and [$].  So the domain
    matches exactly when it is what stands before the first wildcard, then a
    non-empty run of characters other than line terminators, then what stands
    after the first wildcard, every character of the entry, later wildcards
    included, standing for itself.  The entry [*.example.com] matches
    [blog.example.com] and [docs.api.example.com], not [example.com]. *)
Theorem wildcard_pattern_match :
  (forall str, Str.mem "*" (Str.trim str) = true ->
     exists pre suf,
       Str.trim str = pre ++ "*" ++ suf /\ Str.mem "*" pre = false
       /\ domain_pattern str = "^" ++ escapeRegExp pre ++ ".+" ++ escapeRegExp suf ++ "$"
       /\ forall domain,
            domain_match str domain = true
            <-> exists mid,
                  mid <> ""
                  /\ Str.all (fun c => negb (RegExp.is_line_terminator c)) mid = true
                  /\ domain = pre ++ mid ++ suf)
  /\ domain_pattern "*.example.com" = "^.+\.example\.com$"
  /\ domain_match "*.example.com" "blog.example.com" = true
  /\ domain_match "*.example.com" "docs.api.example.com" = true
  /\ domain_match "*.example.com" "example.com" = false.
Proof.
  split; [| repeat split; reflexivity].
  intros str Hstar.
  destruct (first_wildcard _ Hstar) as [pre [suf [Htrim Hpre]]].
  exists pre, suf. repeat split; try assumption.
  - apply (domain_pattern_wildcard str pre suf Htrim Hpre).
  - apply (domain_match_wildcard str pre suf domain Htrim Hpre).
  - apply (domain_match_wildcard str pre suf domain Htrim Hpre).
Qed.

(** ** The token of the [Cookie] header *)

Lemma hex_is_word (c : ascii) : is_hex_lower c = true -> RegExp.is_word_char c = true.
Proof.
  destruct c as [[] [] [] [] [] [] [] []]; intros H;
    first [reflexivity | vm_compute in H; discriminate H].
Qed.

Lemma hex_class (c : ascii) :
  RegExp.cset_mem (RegExp.Ranges [("0", "9"); ("a", "f")]%char) c = is_hex_lower c.
Proof. unfold is_hex_lower. cbn [RegExp.cset_mem existsb fst snd]. now rewrite orb_false_r. Qed.

Lemma all_ext (p q : ascii -> bool) (s : string) :
  (forall c, p c = q c) -> Str.all p s = Str.all q s.
Proof.
  intros H. induction s as [| c s IH]; cbn [Str.all]; [reflexivity |].
  now rewrite H, IH.
Qed.

(** After a non-empty run of [p], the character before the position is
    in [p]. *)
Lemma steps_word_before (p : ascii -> bool) (x : RegExp.ctx) (run : string) :
  run <> "" -> Str.all p run = true ->
  exists c, RegExp.prev (RegExp.steps x run) = Some c /\ p c = true.
Proof.
  revert x. induction run as [| c run IH]; intros x Hne Hall; [congruence |].
  cbn [Str.all] in Hall. apply andb_prop in Hall. destruct Hall as [Hc Hall].
  cbn [RegExp.steps]. destruct run as [| c' run].
  - exists c. split; [reflexivity | assumption].
  - apply IH; [discriminate | assumption].
Qed.

(** What the pattern of line 132 matches at a position: [csrf-token=], then
    32 lowercase hexadecimal characters, which are group 1, then no word
    character. *)
Lemma csrf_regex_match (p : option ascii) (s : string) (g : option string) :
  RegExp.m csrf_regex RegExp.accept (RegExp.start p) s = Some g ->
  exists t rest,
    s = "csrf-token=" ++ t ++ rest /\ is_hex32 t = true /\ g = Some t
    /\ RegExp.word_after rest = false.
Proof.
  unfold csrf_regex. cbn [app RegExp.m]. intros H.
  destruct (xorb _ _); [| discriminate].
  destruct (m_literal_inv _ _ _ _ _ _ H) as [s1 ->].
  rewrite m_literal_app in H. cbn [RegExp.m] in H.
  apply m_times_sound in H. destruct H as [t [rest [-> [Hlen [Hall H]]]]].
  rewrite (all_ext _ _ _ hex_class) in Hall.
  exists t, rest. cbn [RegExp.m] in H.
  destruct (xorb _ _) eqn:Hb in H; [| discriminate].
  unfold RegExp.accept in H. cbn [RegExp.captured] in H.
  rewrite steps_opened in H. cbn [RegExp.opened option_map append] in H.
  repeat split.
  - unfold is_hex32. rewrite Hlen, Hall. reflexivity.
  - congruence.
  - unfold RegExp.word_before in Hb. cbn [RegExp.prev] in Hb.
    match type of Hb with
    | context [RegExp.steps ?x0 t] =>
        destruct (steps_word_before is_hex_lower x0 t) as [c [Hprev Hc]];
        [intros ->; discriminate Hlen | assumption |]
    end.
    rewrite Hprev, (hex_is_word c Hc) in Hb.
    now destruct (RegExp.word_after rest).
Qed.

(** Wherever the pattern matches in the header, group 1 is 32 lowercase
    hexadecimal characters. *)
Lemma search_csrf_shape (s : string) (p : option ascii) (t : string) :
  RegExp.search csrf_regex p s = Some (Some t) -> is_hex32 t = true.
Proof.
  revert p. induction s as [| c s IH]; intros p; cbn [RegExp.search];
    destruct (RegExp.m csrf_regex RegExp.accept (RegExp.start p) _) as [g |] eqn:Hm;
    intros H; try discriminate.
  - apply csrf_regex_match in Hm. destruct Hm as [t' [rest [_ [Hhex [-> _]]]]].
    congruence.
  - apply csrf_regex_match in Hm. destruct Hm as [t' [rest [_ [Hhex [-> _]]]]].
    congruence.
  - eapply IH. eassumption.
Qed.

Lemma csrfToken_shape (cookie : option string) (t : string) :
  csrfToken_of cookie = Some t -> is_hex32 t = true.
Proof.
  unfold csrfToken_of, RegExp.exec. destruct cookie as [value |]; [| discriminate].
  destruct (RegExp.search csrf_regex None value) as [g |] eqn:Hs; [| discriminate].
  intros ->. eapply search_csrf_shape. eassumption.
Qed.

Lemma search_cons (r : RegExp.regex) (p : option ascii) (c : ascii) (s : string) :
  RegExp.search r p (String c s) =
    match RegExp.m r RegExp.accept (RegExp.start p) (String c s) with
    | Some g => Some g
    | None => RegExp.search r (Some c) s
    end.
Proof. reflexivity. Qed.

(** The pattern does not match where the input does not start with [c]. *)
Lemma search_csrf_skip (p : option ascii) (c : ascii) (s : string) :
  c <> "c"%char ->
  RegExp.search csrf_regex p (String c s) = RegExp.search csrf_regex (Some c) s.
Proof.
  intros Hc. cbn [RegExp.search].
  destruct (RegExp.m csrf_regex RegExp.accept (RegExp.start p) (String c s)) as [g |] eqn:Hm;
    [| reflexivity].
  apply csrf_regex_match in Hm. destruct Hm as [t [rest [Heq _]]].
  cbn [append] in Heq. congruence.
Qed.

(** The pattern matches nowhere in a run of word characters. *)
Lemma search_csrf_word_run (v : string) (p : option ascii) :
  Str.all RegExp.is_word_char v = true -> RegExp.search csrf_regex p v = None.
Proof.
  revert p. induction v as [| c v IH]; intros p Hall; cbn [RegExp.search];
    destruct (RegExp.m csrf_regex RegExp.accept (RegExp.start p) _) as [g |] eqn:Hm.
  - apply csrf_regex_match in Hm. destruct Hm as [t [rest [Heq _]]]. discriminate Heq.
  - reflexivity.
  - apply csrf_regex_match in Hm. destruct Hm as [t [rest [Heq _]]].
    rewrite Heq, all_append in Hall. discriminate Hall.
  - apply IH. cbn [Str.all] in Hall. apply andb_prop in Hall. apply Hall.
Qed.

(** A header [csrf-token=value] whose value is made of word characters and is
    not 32 lowercase hexadecimal characters yields no token. *)
Lemma csrfToken_of_word_value (value : string) :
  Str.all RegExp.is_word_char value = true -> is_hex32 value = false ->
  csrfToken_of (Some ("csrf-token=" ++ value)) = None.
Proof.
  intros Hword Hnot. unfold csrfToken_of, RegExp.exec.
  assert (Hfirst : RegExp.m csrf_regex RegExp.accept (RegExp.start None)
                     ("csrf-token=" ++ value) = None).
  { destruct (RegExp.m csrf_regex _ _ _) as [g |] eqn:Hm; [| reflexivity].
    apply csrf_regex_match in Hm. destruct Hm as [t [rest [Heq [Hhex [_ Hafter]]]]].
    apply append_inv_head in Heq. subst value.
    rewrite all_append in Hword. apply andb_prop in Hword. destruct Hword as [_ Hrest].
    destruct rest as [| c rest].
    - rewrite append_nil_r in Hnot. congruence.
    - cbn [Str.all] in Hrest. cbn [RegExp.word_after] in Hafter.
      rewrite Hafter in Hrest. discriminate Hrest. }
  cbn [append] in *. rewrite search_cons, Hfirst.
  do 10 (rewrite search_csrf_skip by discriminate).
  now rewrite search_csrf_word_run.
Qed.

Lemma m_times_app {R : Type} (cs : RegExp.cset) (k : @RegExp.cont R)
    (x : RegExp.ctx) (run rest : string) :
  Str.all (RegExp.cset_mem cs) run = true ->
  RegExp.m_times (length run) cs k x (run ++ rest) = k (RegExp.steps x run) rest.
Proof.
  revert x. induction run as [| c run IH]; intros x Hall; [reflexivity |].
  cbn [Str.all] in Hall. apply andb_prop in Hall. destruct Hall as [Hc Hall].
  cbn [length append RegExp.m_times RegExp.steps]. rewrite Hc. now apply IH.
Qed.

(** The pattern of line 132 matches at [csrf-token=<token>] when no word
    character stands before it or after it. *)
Lemma csrf_regex_accepts (p : option ascii) (tok rest : string) :
  is_hex32 tok = true -> RegExp.word_after rest = false ->
  RegExp.word_before (RegExp.start p) = false ->
  RegExp.m csrf_regex RegExp.accept (RegExp.start p) ("csrf-token=" ++ tok ++ rest)
  = Some (Some tok).
Proof.
  intros Hhex Hrest Hbefore. unfold is_hex32 in Hhex. apply andb_prop in Hhex.
  destruct Hhex as [Hlen Hall]. apply Nat.eqb_eq in Hlen.
  unfold csrf_regex. cbn [app RegExp.m]. rewrite Hbefore.
  change (xorb false (RegExp.word_after ("csrf-token=" ++ tok ++ rest))) with true.
  cbv iota. rewrite m_literal_app. cbn [RegExp.m]. rewrite <- Hlen.
  rewrite m_times_app by (now rewrite (all_ext _ _ _ hex_class)).
  cbn [RegExp.m]. unfold RegExp.word_before. cbn [RegExp.prev].
  match goal with
  | |- context [RegExp.steps ?x0 tok] =>
      destruct (steps_word_before is_hex_lower x0 tok) as [c [Hprev Hc]];
      [intros ->; discriminate Hlen | assumption |]
  end.
  rewrite Hprev, (hex_is_word c Hc), Hrest. cbn [xorb].
  unfold RegExp.accept. cbn [RegExp.captured].
  rewrite steps_opened. reflexivity.
Qed.

(** The search passes over a text without the letter [c]. *)
Lemma search_csrf_before (before s : string) (p : option ascii) :
  Str.mem "c" before = false ->
  RegExp.search csrf_regex p (before ++ s) = RegExp.search csrf_regex (last_char p before) s.
Proof.
  revert p. induction before as [| c before IH]; intros p Hno; [reflexivity |].
  cbn [Str.mem] in Hno. apply orb_false_elim in Hno. destruct Hno as [Hc Hno].
  cbn [append last_char]. rewrite search_csrf_skip.
  - now apply IH.
  - intros ->. discriminate Hc.
Qed.

Lemma prefix_append (a b : string) : prefix a (a ++ b) = true.
Proof.
  induction a as [| x a IH]; cbn [append prefix]; [now destruct b |].
  destruct (ascii_dec x x); [exact IH | congruence].
Qed.

Lemma includes_text_prefix (pat s : string) :
  prefix pat s = true -> includes_text pat s = true.
Proof. intros H. destruct s; cbn [includes_text]; now rewrite H. Qed.

Lemma take_append (t rest : string) : take (length t) (t ++ rest) = t.
Proof.
  induction t as [| c t IH]; cbn [length append take]; [now destruct rest |].
  now rewrite IH.
Qed.

Lemma drop_append (t rest : string) : Str.drop (length t) (t ++ rest) = rest.
Proof. induction t as [| c t IH]; cbn [length append Str.drop]; [reflexivity | exact IH]. Qed.

Lemma take_drop (n : nat) (s : string) : take n s ++ Str.drop n s = s.
Proof.
  revert s. induction n as [| n IH]; intros [| c s]; cbn [take Str.drop append];
    try reflexivity. now rewrite IH.
Qed.

(** Where the pattern of line 132 matches, no word character stands
    before. *)
Lemma csrf_regex_match_before (p : option ascii) (s : string) (g : option string) :
  RegExp.m csrf_regex RegExp.accept (RegExp.start p) s = Some g ->
  RegExp.word_before (RegExp.start p) = false.
Proof.
  intros H. destruct (csrf_regex_match p s g H) as [t [rest [-> _]]].
  unfold csrf_regex in H. cbn [app RegExp.m] in H.
  change (RegExp.word_after ("csrf-token=" ++ t ++ rest)) with true in H.
  destruct (RegExp.word_before (RegExp.start p)); [discriminate H | reflexivity].
Qed.

(** The pattern at a position where [csrf-token=] stands. *)
Lemma csrf_regex_at (p : option ascii) (tail : string) :
  RegExp.m csrf_regex RegExp.accept (RegExp.start p) ("csrf-token=" ++ tail)
  = if negb (RegExp.word_before (RegExp.start p)) && starts_with_token tail
    then Some (Some (take 32 tail)) else None.
Proof.
  destruct (negb (RegExp.word_before (RegExp.start p)) && starts_with_token tail) eqn:Hcond.
  - apply andb_prop in Hcond. destruct Hcond as [Hbefore Htoken].
    apply negb_true_iff in Hbefore. unfold starts_with_token in Htoken.
    apply andb_prop in Htoken. destruct Htoken as [Hhex Hafter].
    apply negb_true_iff in Hafter.
    rewrite <- (take_drop 32 tail) at 1.
    now apply csrf_regex_accepts.
  - destruct (RegExp.m csrf_regex _ _ _) as [g |] eqn:Hm; [| reflexivity].
    pose proof (csrf_regex_match_before _ _ _ Hm) as Hbefore.
    apply csrf_regex_match in Hm. destruct Hm as [t [rest [Heq [Hhex [_ Hafter]]]]].
    apply append_inv_head in Heq. subst tail.
    assert (Hlen : length t = 32).
    { unfold is_hex32 in Hhex. apply andb_prop in Hhex. now apply Nat.eqb_eq. }
    unfold starts_with_token in Hcond.
    rewrite <- Hlen, take_append, drop_append, Hhex, Hafter, Hbefore in Hcond.
    discriminate Hcond.
Qed.

(** The pattern matches nowhere in a text that does not hold [csrf-token=]. *)
Lemma search_csrf_without_text (s : string) (p : option ascii) :
  includes_text "csrf-token=" s = false -> RegExp.search csrf_regex p s = None.
Proof.
  revert p. induction s as [| c s IH]; intros p Hno; cbn [RegExp.search];
    destruct (RegExp.m csrf_regex RegExp.accept (RegExp.start p) _) as [g |] eqn:Hm.
  - apply csrf_regex_match in Hm. destruct Hm as [t [rest [Heq _]]]. discriminate Heq.
  - reflexivity.
  - apply csrf_regex_match in Hm. destruct Hm as [t [rest [Heq _]]].
    rewrite Heq in Hno.
    rewrite (includes_text_prefix _ _ (prefix_append "csrf-token=" (t ++ rest))) in Hno.
    discriminate Hno.
  - apply IH. cbn [includes_text] in Hno. now apply orb_false_elim in Hno.
Qed.

(** The token of a header in which [csrf-token=] stands once, after a text
    without the letter [c]. *)
Lemma csrfToken_of_one_cookie (before tail : string) :
  Str.mem "c" before = false ->
  includes_text "csrf-token=" tail = false ->
  csrfToken_of (Some (before ++ "csrf-token=" ++ tail))
  = if negb (RegExp.word_before (RegExp.start (last_char None before)))
       && starts_with_token tail
    then Some (take 32 tail) else None.
Proof.
  intros Hbefore Htail. unfold csrfToken_of, RegExp.exec.
  rewrite search_csrf_before by assumption.
  pose proof (csrf_regex_at (last_char None before) tail) as Hat.
  change ("csrf-token=" ++ tail) with (String "c" ("srf-token=" ++ tail)) in *.
  rewrite search_cons, Hat.
  destruct (_ && _); [reflexivity |].
  cbn [append].
  do 10 (rewrite search_csrf_skip by discriminate).
  now rewrite search_csrf_without_text.
Qed.

(** Where the token of a header comes from. *)
Lemma search_csrf_sound (s : string) (p : option ascii) (g : option string) :
  RegExp.search csrf_regex p s = Some g ->
  exists before t rest,
    s = before ++ "csrf-token=" ++ t ++ rest /\ is_hex32 t = true /\ g = Some t
    /\ RegExp.word_before (RegExp.start (last_char p before)) = false
    /\ RegExp.word_after rest = false.
Proof.
  revert p. induction s as [| c s IH]; intros p; cbn [RegExp.search];
    destruct (RegExp.m csrf_regex RegExp.accept (RegExp.start p) _) as [g' |] eqn:Hm;
    intros H; try discriminate.
  - apply csrf_regex_match in Hm. destruct Hm as [t [rest [Heq _]]]. discriminate Heq.
  - injection H as ->. pose proof (csrf_regex_match_before _ _ _ Hm) as Hbefore.
    apply csrf_regex_match in Hm. destruct Hm as [t [rest [Heq [Hhex [Hg Hafter]]]]].
    exists "", t, rest. auto.
  - destruct (IH _ H) as [before [t [rest [-> [Hhex [Hg [Hbefore Hafter]]]]]]].
    exists (String c before), t, rest. auto.
Qed.

Lemma search_csrf_complete (before t rest : string) (p : option ascii) :
  is_hex32 t = true ->
  RegExp.word_before (RegExp.start (last_char p before)) = false ->
  RegExp.word_after rest = false ->
  RegExp.search csrf_regex p (before ++ "csrf-token=" ++ t ++ rest) <> None.
Proof.
  intros Hhex Hbefore Hafter. revert p Hbefore.
  induction before as [| c before IH]; intros p Hbefore.
  - cbn [last_char] in Hbefore.
    pose proof (csrf_regex_accepts p t rest Hhex Hafter Hbefore) as Hm.
    change ("" ++ "csrf-token=" ++ t ++ rest)
      with (String "c" ("srf-token=" ++ t ++ rest)).
    change ("csrf-token=" ++ t ++ rest)
      with (String "c" ("srf-token=" ++ t ++ rest)) in Hm.
    rewrite search_cons, Hm. discriminate.
  - cbn [append]. rewrite search_cons.
    destruct (RegExp.m csrf_regex _ _ _); [discriminate |].
    apply IH. exact Hbefore.
Qed.

(** A header yields a token exactly when [csrf-token=] stands somewhere in it
    after no word character, followed by 32 lowercase hexadecimal characters
    and then by no word character. *)
Lemma csrfToken_of_none (header : string) :
  csrfToken_of (Some header) = None
  <-> ~ exists before t rest,
          header = before ++ "csrf-token=" ++ t ++ rest /\ is_hex32 t = true
          /\ RegExp.word_before (RegExp.start (last_char None before)) = false
          /\ RegExp.word_after rest = false.
Proof.
  unfold csrfToken_of, RegExp.exec. split.
  - intros Hnone [before [t [rest [-> [Hhex [Hbefore Hafter]]]]]].
    pose proof (search_csrf_complete before t rest None Hhex Hbefore Hafter) as Hs.
    destruct (RegExp.search csrf_regex None _) as [g |] eqn:Hsearch; [| congruence].
    apply search_csrf_sound in Hsearch.
    destruct Hsearch as [b' [t' [r' [_ [_ [-> _]]]]]]. discriminate Hnone.
  - intros Hno. destruct (RegExp.search csrf_regex None header) as [g |] eqn:Hsearch;
      [| reflexivity].
    exfalso. apply Hno. apply search_csrf_sound in Hsearch.
    destruct Hsearch as [before [t [rest [Heq [Hhex [_ [Hbefore Hafter]]]]]]].
    exists before, t, rest. auto.
Qed.

(** C10, as amended.  The token is taken from the [Cookie] header where
    [csrf-token=] stands after no word character, followed by 32 lowercase
    hexadecimal characters and then by no word character, and nowhere else;
    so it is always 32 lowercase hexadecimal characters.  For a header in
    which [csrf-token=] stands once (after nothing, or after a text without
    the letter [c]), the cookie is treated as if no cookie were present unless
    what follows [csrf-token=] starts with 32 lowercase hexadecimal characters
    after which comes nothing or a character that is no letter, digit or
    underscore; then these 32 characters are the token.  A value of letters,
    digits and underscores that is not 32 lowercase hexadecimal characters is
    treated as absent in particular.  And a callback that carries [code] and a
    [state] that is not 32 lowercase hexadecimal characters is answered with
    CSRF_DETECTED whatever the header holds, a cookie equal to [state]
    included. *)
Theorem csrf_cookie_shape :
  (forall cookie t, csrfToken_of cookie = Some t -> is_hex32 t = true)
  /\ (forall header,
        csrfToken_of (Some header) = csrfToken_of None
        <-> ~ exists before t rest,
                header = before ++ "csrf-token=" ++ t ++ rest /\ is_hex32 t = true
                /\ RegExp.word_before (RegExp.start (last_char None before)) = false
                /\ RegExp.word_after rest = false)
  /\ (forall before tail,
        Str.mem "c" before = false ->
        includes_text "csrf-token=" tail = false ->
        csrfToken_of (Some (before ++ "csrf-token=" ++ tail))
        = if negb (RegExp.word_before (RegExp.start (last_char None before)))
             && starts_with_token tail
          then Some (take 32 tail) else csrfToken_of None)
  /\ (forall value,
        Str.all RegExp.is_word_char value = true -> is_hex32 value = false ->
        csrfToken_of (Some ("csrf-token=" ++ value)) = csrfToken_of None)
  /\ (forall request env code state,
        assoc_last "code" (searchParams request) = Some code -> code <> "" ->
        assoc_last "state" (searchParams request) = Some state -> state <> "" ->
        is_hex32 state = false ->
        handleCallback request env =
          Ret (outputHTML
                 {| provider := None; token := None;
                    error := Some (JStr "Potential CSRF attack detected. Authentication flow aborted.");
                    errorCode := Some "CSRF_DETECTED" |})).
Proof.
  split; [exact csrfToken_shape |].
  split; [exact csrfToken_of_none |].
  split; [exact csrfToken_of_one_cookie |].
  split; [exact csrfToken_of_word_value |].
  intros request env code state Hcode Hc Hstate Hs Hnot.
  apply (handleCallback_csrf request env code state Hcode Hc Hstate Hs).
  intros Htoken. apply csrfToken_shape in Htoken. congruence.
Qed.

(** ** The authorization initiator: the redirect *)

Lemma replaceAll_hyphen_cons (c : ascii) (s : string) :
  Str.replaceAll_from 0 "-" "" (String c s) =
    if Ascii.eqb c "-" then Str.replaceAll_from 0 "-" "" s
    else String c (Str.replaceAll_from 0 "-" "" s).
Proof.
  cbn [Str.replaceAll_from prefix]. destruct (ascii_dec "-" c) as [Heq | Hneq].
  - subst c. rewrite Ascii.eqb_refl. now destruct s.
  - assert (Hc : Ascii.eqb c "-" = false) by (apply Ascii.eqb_neq; congruence).
    now rewrite Hc.
Qed.

Lemma hex_not_hyphen (c : ascii) : is_hex_lower c = true -> Ascii.eqb c "-" = false.
Proof.
  intros H. apply Ascii.eqb_neq. intros ->. discriminate H.
Qed.

(** Without its hyphens, a text of a given shape is its hexadecimal digits. *)
Lemma replaceAll_hyphen_shape (shape : list slot) (s : string) :
  has_shape shape s = true ->
  Str.all is_hex_lower (Str.replaceAll "-" "" s) = true
  /\ length (Str.replaceAll "-" "" s) = hex_slots shape.
Proof.
  unfold Str.replaceAll. revert s.
  induction shape as [| [] shape IH]; intros [| c s] H; cbn [has_shape] in H;
    try discriminate; [split; reflexivity | |];
    apply andb_prop in H; destruct H as [Hc H]; destruct (IH _ H) as [Hall Hlen];
    rewrite replaceAll_hyphen_cons.
  - rewrite (hex_not_hyphen c Hc). cbn [Str.all length hex_slots].
    now rewrite Hc, Hall, Hlen.
  - rewrite Hc. split; assumption.
Qed.

(** The token made of a UUID is 32 lowercase hexadecimal characters. *)
Lemma uuid_token (uuid : string) :
  is_uuid uuid = true -> is_hex32 (Str.replaceAll "-" "" uuid) = true.
Proof.
  intros H. destruct (replaceAll_hyphen_shape uuid_shape uuid H) as [Hall Hlen].
  unfold is_hex32. rewrite Hall, Hlen. reflexivity.
Qed.

Lemma urlencode_hex_char (c : ascii) :
  is_hex_lower c = true -> String.concat "" (map urlencode_byte (utf8 c)) = Str.char c.
Proof.
  destruct c as [[] [] [] [] [] [] [] []]; intros H;
    first [reflexivity | vm_compute in H; discriminate H].
Qed.

(** The serializer leaves hexadecimal digits as they are. *)
Lemma urlencode_hex (s : string) : Str.all is_hex_lower s = true -> urlencode s = s.
Proof.
  induction s as [| c s IH]; cbn [Str.all urlencode]; [reflexivity |].
  intros H. apply andb_prop in H. destruct H as [Hc Hall].
  now rewrite (urlencode_hex_char c Hc), (IH Hall).
Qed.

(** The domain goes through when the allow-list is unset or empty, or when one
    of its entries matches. *)
Lemma domain_rejected_false (allowed domain : option string) :
  domain_rejected allowed domain = false
  <-> allowed = None \/ allowed = Some ""
      \/ exists list str,
           allowed = Some list /\ In str (Str.split "," list)
           /\ domain_match str (match domain with Some d => d | None => "" end) = true.
Proof.
  unfold domain_rejected. destruct allowed as [list |]; [| intuition].
  destruct (list =? "") eqn:Hempty; cbn [negb andb].
  - apply String.eqb_eq in Hempty. subst list. intuition.
  - apply String.eqb_neq in Hempty. rewrite negb_false_iff, existsb_exists. split.
    + intros [str [Hin Hm]]. right. right. exists list, str. auto.
    + intros [H | [H | [list' [str [Hl [Hin Hm]]]]]]; try congruence.
      injection Hl as <-. exists str. auto.
Qed.

(** C6, as amended.  With an allowed domain, the client id and secret
    configured, and a hostname (the configured [GITHUB_HOSTNAME], [github.com]
    when it is unset) without NUL, line feed and carriage return, the initiator
    asks the platform for a UUID, makes the CSRF token of it by dropping the
    hyphens (32 lowercase hexadecimal characters), and answers with a 302
    whose [Location] is [https://<hostname>/login/oauth/authorize] with the
    query parameters [client_id], [scope] = [repo,user] and [state] = the
    token, as [URLSearchParams] serializes them, and whose [Set-Cookie] sets
    [csrf-token] to that token with [HttpOnly], [Path=/], [Max-Age=600],
    [SameSite=Lax] and [Secure].  With one of the three characters in the
    hostname, [new Response] throws a [TypeError] and there is no response. *)
Theorem authorization_redirect
    (request : Request) (env : Env) (client_id hostname uuid : string) :
  domain_rejected (ALLOWED_DOMAINS env)
                  (assoc_last "site_id" (searchParams request)) = false ->
  GITHUB_CLIENT_ID env = Some client_id -> client_id <> "" ->
  truthy_string (GITHUB_CLIENT_SECRET env) = true ->
  GITHUB_HOSTNAME env = Some hostname
  \/ (GITHUB_HOSTNAME env = None /\ hostname = "github.com") ->
  is_uuid uuid = true ->
  exists k csrfToken,
    handleAuth request env = RandomUUID k
    /\ csrfToken = Str.replaceAll "-" "" uuid
    /\ is_hex32 csrfToken = true
    /\ (is_header_value hostname = true ->
        k uuid =
          Ret {| status := 302; body := "";
                 headers :=
                   [("Location",
                     "https://" ++ hostname ++ "/login/oauth/authorize?"
                     ++ URLSearchParams_toString
                          [("client_id", client_id); ("scope", "repo,user");
                           ("state", csrfToken)]);
                    ("Set-Cookie",
                     "csrf-token=" ++ csrfToken
                     ++ "; HttpOnly; Path=/; Max-Age=600; SameSite=Lax; Secure")] |})
    /\ (is_header_value hostname = false -> k uuid = Throw "TypeError")
    /\ URLSearchParams_toString
         [("client_id", client_id); ("scope", "repo,user"); ("state", csrfToken)]
       = "client_id=" ++ urlencode client_id ++ "&scope=repo%2Cuser&state=" ++ csrfToken.
Proof.
  intros Hdomain Hid Hne Hsecret Hhost Huuid.
  assert (Hconf : misconfigured env = false).
  { unfold misconfigured. rewrite Hid, Hsecret. cbn [truthy_string].
    apply String.eqb_neq in Hne. now rewrite Hne. }
  assert (Hname : hostname_of env = hostname).
  { unfold hostname_of. destruct Hhost as [-> | [-> ->]]; reflexivity. }
  pose proof (uuid_token uuid Huuid) as Hhex.
  pose proof (hex32_header_value _ Hhex) as Htoken.
  exists (fun uuid =>
            let csrfToken := Str.replaceAll "-" "" uuid in
            if misconfigured env then
              Ret (error_page "OAuth app client ID or secret is not configured."
                              "MISCONFIGURED_CLIENT")
            else
              new_Response "" 302 [("Location", authURL env csrfToken);
                                   ("Set-Cookie", set_cookie csrfToken)]),
         (Str.replaceAll "-" "" uuid).
  split; [unfold handleAuth; now rewrite Hdomain |].
  split; [reflexivity |]. split; [assumption |].
  cbv zeta. rewrite Hconf, redirect_response, Hname, Htoken, andb_true_r.
  split; [| split].
  - intros ->. unfold authURL. rewrite Hid, Hname. reflexivity.
  - intros ->. reflexivity.
  - rewrite authorize_query.
    unfold is_hex32 in Hhex. apply andb_prop in Hhex. destruct Hhex as [_ Hall].
    now rewrite (urlencode_hex _ Hall).
Qed.

(* ================================================================= *)
(** * The properties on sample requests *)

(** C1 on the entry [ *.example.com ], surrounded by spaces. *)
Lemma wildcard_pattern_match_sample :
  Str.mem "*" (Str.trim " *.example.com ") = true
  /\ exists pre suf,
       Str.trim " *.example.com " = pre ++ "*" ++ suf /\ Str.mem "*" pre = false
       /\ domain_pattern " *.example.com "
          = "^" ++ escapeRegExp pre ++ ".+" ++ escapeRegExp suf ++ "$"
       /\ forall domain,
            domain_match " *.example.com " domain = true
            <-> exists mid,
                  mid <> ""
                  /\ Str.all (fun c => negb (RegExp.is_line_terminator c)) mid = true
                  /\ domain = pre ++ mid ++ suf.
Proof.
  split; [reflexivity |].
  apply (proj1 wildcard_pattern_match " *.example.com "). reflexivity.
Defined.

(** C2 on a callback without [code], with a cookie that does not match. *)
Lemma callback_missing_parameter_sample :
  handleCallback (sample_callback [("state", sample_token)] (Some "csrf-token=other"))
                 sample_env =
    Ret (outputHTML
           {| provider := None; token := None;
              error := Some (JStr "Failed to receive an authorization code. Please try again later.");
              errorCode := Some "AUTH_CODE_REQUEST_FAILED" |}).
Proof.
  apply (callback_missing_parameter
           (sample_callback [("state", sample_token)] (Some "csrf-token=other")) sample_env).
  left. reflexivity.
Defined.

(** C3 on a callback without cookie. *)
Lemma callback_csrf_check_sample :
  handleCallback (sample_callback [("code", "abc"); ("state", sample_token)] None)
                 sample_env =
    Ret (outputHTML
           {| provider := None; token := None;
              error := Some (JStr "Potential CSRF attack detected. Authentication flow aborted.");
              errorCode := Some "CSRF_DETECTED" |}).
Proof.
  apply (callback_csrf_check
           (sample_callback [("code", "abc"); ("state", sample_token)] None)
           sample_env "abc" sample_token);
    try reflexivity; discriminate.
Defined.

(** C4, as amended, on a request that no route serves. *)
Lemma set_cookie_of_every_response_sample :
  (status not_found = 200
   /\ header "Set-Cookie" (headers not_found) = Some delete_cookie)
  \/ (status not_found = 302
      /\ exists csrfToken,
           header "Set-Cookie" (headers not_found) =
             Some ("csrf-token=" ++ csrfToken
                   ++ "; HttpOnly; Path=/; Max-Age=600; SameSite=Lax; Secure"))
  \/ (status not_found = 404
      /\ header "Set-Cookie" (headers not_found) = None).
Proof.
  apply (set_cookie_of_every_response
           {| method := "POST"; pathname := "/oauth"; searchParams := []; cookie := None |}
           sample_env not_found).
  apply produces_ret.
Defined.

(** C4 as stated fails: the 404 response has no [Set-Cookie] header, and the
    302 redirect sets the cookie for ten minutes. *)
Lemma set_cookie_not_always_deleted :
  produces (fetch {| method := "POST"; pathname := "/oauth"; searchParams := [];
                     cookie := None |} sample_env)
           not_found
  /\ header "Set-Cookie" (headers not_found) = None
  /\ exists redirect,
       produces (fetch (sample_auth "blog.example.com") sample_env) redirect
       /\ status redirect = 302
       /\ header "Set-Cookie" (headers redirect) =
            Some ("csrf-token=" ++ sample_token
                  ++ "; HttpOnly; Path=/; Max-Age=600; SameSite=Lax; Secure")
       /\ header "Set-Cookie" (headers redirect) <> Some delete_cookie.
Proof.
  split; [apply produces_ret |]. split; [reflexivity |].
  eexists. split.
  - apply (produces_uuid _ sample_uuid). apply produces_ret.
  - split; [reflexivity |]. split; [reflexivity |].
    intros H. vm_compute in H. discriminate H.
Qed.

(** C5 on a domain outside the allow-list. *)
Lemma unsupported_domain_sample :
  handleAuth (sample_auth "example.org") sample_env =
    Ret (outputHTML
           {| provider := None; token := None;
              error := Some (JStr "Your domain is not allowed to use the authenticator.");
              errorCode := Some "UNSUPPORTED_DOMAIN" |})
  /\ forall response, produces (handleAuth (sample_auth "example.org") sample_env) response ->
       header "Location" (headers response) = None /\ status response = 200.
Proof.
  apply (unsupported_domain (sample_auth "example.org") sample_env "*.example.com").
  - reflexivity.
  - discriminate.
  - intros str [<- | []]. reflexivity.
Defined.

(** C6, as amended, on [GET /oauth?site_id=blog.example.com]. *)
Lemma authorization_redirect_sample :
  exists k csrfToken,
    handleAuth (sample_auth "blog.example.com") sample_env = RandomUUID k
    /\ csrfToken = Str.replaceAll "-" "" sample_uuid
    /\ is_hex32 csrfToken = true
    /\ k sample_uuid =
         Ret {| status := 302; body := "";
                headers :=
                  [("Location",
                    "https://" ++ "github.com" ++ "/login/oauth/authorize?"
                    ++ URLSearchParams_toString
                         [("client_id", "Iv23liv25McWF48WFQOB"); ("scope", "repo,user");
                          ("state", csrfToken)]);
                   ("Set-Cookie",
                    "csrf-token=" ++ csrfToken
                    ++ "; HttpOnly; Path=/; Max-Age=600; SameSite=Lax; Secure")] |}
    /\ URLSearchParams_toString
         [("client_id", "Iv23liv25McWF48WFQOB"); ("scope", "repo,user");
          ("state", csrfToken)]
       = "client_id=" ++ urlencode "Iv23liv25McWF48WFQOB"
         ++ "&scope=repo%2Cuser&state=" ++ csrfToken.
Proof.
  destruct (authorization_redirect (sample_auth "blog.example.com") sample_env
              "Iv23liv25McWF48WFQOB" "github.com" sample_uuid)
    as [k [csrfToken [Hk [Htoken [Hhex [Hredirect [_ Hquery]]]]]]];
    try reflexivity; try discriminate.
  - right. split; reflexivity.
  - exists k, csrfToken. repeat split; try assumption.
    apply Hredirect. reflexivity.
Defined.

(** C6 as stated fails: the domain is allowed and the client id and secret are
    configured, but the hostname ends in a line feed, which then stands in the
    [Location] value: [new Response] throws and there is no 302. *)
Lemma redirect_throws_on_line_feed :
  domain_rejected (ALLOWED_DOMAINS sample_env_line_feed)
                  (assoc_last "site_id" (searchParams (sample_auth "blog.example.com")))
  = false
  /\ misconfigured sample_env_line_feed = false
  /\ is_uuid sample_uuid = true
  /\ exists k,
       handleAuth (sample_auth "blog.example.com") sample_env_line_feed = RandomUUID k
       /\ k sample_uuid = Throw "TypeError"
       /\ forall response, ~ produces (k sample_uuid) response.
Proof.
  split; [reflexivity |]. split; [reflexivity |]. split; [reflexivity |].
  eexists. split; [reflexivity |].
  assert (H : new_Response "" 302
                [("Location", authURL sample_env_line_feed (Str.replaceAll "-" "" sample_uuid));
                 ("Set-Cookie", set_cookie (Str.replaceAll "-" "" sample_uuid))]
              = Throw "TypeError") by (vm_compute; reflexivity).
  cbv beta zeta.
  change (misconfigured sample_env_line_feed) with false. cbv iota.
  rewrite H. split; [reflexivity |].
  intros response Hp. inversion Hp.
Qed.

(** The redirect of the sample request, in full. *)
Example authorization_redirect_in_full :
  produces (fetch (sample_auth "blog.example.com") sample_env)
    {| status := 302; body := "";
       headers :=
         [("Location",
           "https://github.com/login/oauth/authorize?client_id=Iv23liv25McWF48WFQOB&scope=repo%2Cuser&state=0123456789ab4cde8f0123456789abcd");
          ("Set-Cookie",
           "csrf-token=0123456789ab4cde8f0123456789abcd; HttpOnly; Path=/; Max-Age=600; SameSite=Lax; Secure")] |}.
Proof. apply (produces_uuid _ sample_uuid). apply produces_ret. Qed.

(** C7, as amended, on the callback that follows the sample redirect. *)
Lemma token_exchange_outcomes_sample :
  exists k,
    handleCallback sample_return sample_env =
      Fetch (tokenURL sample_env) (token_request (Some "abc") sample_env) k
    /\ k None =
         Ret (outputHTML
                {| provider := None; token := None;
                   error := Some (JStr "Failed to request an access token. Please try again later.");
                   errorCode := Some "TOKEN_REQUEST_FAILED" |})
    /\ (forall response,
          response_json response = None \/ response_json response = Some JNull ->
          k (Some response) =
            Ret (outputHTML
                   {| provider := None; token := None;
                      error := Some (JStr "Server responded with malformed data. Please try again later.");
                      errorCode := Some "MALFORMED_RESPONSE" |}))
    /\ (forall response parsed,
          response_json response = Some parsed -> parsed <> JNull ->
          k (Some response) =
            Ret (outputHTML
                   {| provider := None;
                      token := get_property parsed "access_token";
                      error := get_property parsed "error";
                      errorCode := None |})
          /\ forall reported,
               get_property parsed "error" = Some reported ->
               truthy (Some reported) = true ->
               k (Some response) =
                 Ret {| status := 200;
                        body := html "github" "error"
                                  (JSON_stringify
                                     (JObj [("provider", JStr "github"); ("error", reported)]));
                        headers := [("Content-Type", "text/html;charset=UTF-8");
                                    ("Set-Cookie", delete_cookie)] |}).
Proof.
  apply (token_exchange_outcomes sample_return sample_env "abc" sample_token);
    try reflexivity; discriminate.
Defined.

(** C7 as stated fails: the body [null] is parsed as JSON, and the answer is
    MALFORMED_RESPONSE, not a page made of its properties. *)
Lemma null_body_is_malformed :
  exists url init k,
    handleCallback sample_return sample_env = Fetch url init k
    /\ k (Some {| response_json := Some JNull |}) =
         Ret (outputHTML
                {| provider := None; token := None;
                   error := Some (JStr "Server responded with malformed data. Please try again later.");
                   errorCode := Some "MALFORMED_RESPONSE" |})
    /\ k (Some {| response_json := Some JNull |}) <>
         Ret (outputHTML
                {| provider := None;
                   token := get_property JNull "access_token";
                   error := get_property JNull "error";
                   errorCode := None |}).
Proof.
  do 3 eexists. split; [reflexivity |]. split; [reflexivity |].
  intros H. apply (f_equal (fun t => match t with Ret r => body r | _ => "" end)) in H.
  vm_compute in H. discriminate H.
Qed.

(** C9, as amended, on a token response [{}]. *)
Lemma exchange_without_token_sample :
  exists url init k,
    handleCallback sample_return sample_env = Fetch url init k
    /\ k (Some {| response_json := Some (JObj []) |}) =
         Ret {| status := 200;
                body := html "github" "success"
                          ("{" ++ Str.dquote ++ "provider" ++ Str.dquote ++ ":"
                           ++ Str.dquote ++ "github" ++ Str.dquote ++ "}");
                headers := [("Content-Type", "text/html;charset=UTF-8");
                            ("Set-Cookie", delete_cookie)] |}.
Proof.
  apply (exchange_without_token sample_return sample_env "abc" sample_token
           {| response_json := Some (JObj []) |} (JObj []));
    try reflexivity; discriminate.
Defined.

(** C9 as stated fails: the body [null] is parsed as JSON and has neither
    property, and the page carries the error message of MALFORMED_RESPONSE,
    not a success message. *)
Lemma null_body_is_no_success :
  get_property JNull "access_token" = None
  /\ truthy (get_property JNull "error") = false
  /\ exists url init k,
       handleCallback sample_return sample_env = Fetch url init k
       /\ k (Some {| response_json := Some JNull |}) =
            Ret {| status := 200;
                   body := html "github" "error"
                             (JSON_stringify
                                (JObj [("provider", JStr "github");
                                       ("error", JStr "Server responded with malformed data. Please try again later.");
                                       ("errorCode", JStr "MALFORMED_RESPONSE")]));
                   headers := [("Content-Type", "text/html;charset=UTF-8");
                               ("Set-Cookie", delete_cookie)] |}
       /\ k (Some {| response_json := Some JNull |}) <>
            Ret {| status := 200;
                   body := html "github" "success"
                             ("{" ++ Str.dquote ++ "provider" ++ Str.dquote ++ ":"
                              ++ Str.dquote ++ "github" ++ Str.dquote ++ "}");
                   headers := [("Content-Type", "text/html;charset=UTF-8");
                               ("Set-Cookie", delete_cookie)] |}.
Proof.
  split; [reflexivity |]. split; [reflexivity |].
  do 3 eexists. split; [reflexivity |]. split; [reflexivity |].
  intros H. apply (f_equal (fun t => match t with Ret r => body r | _ => "" end)) in H.
  vm_compute in H. discriminate H.
Qed.

(** C8 on three requests. *)
Lemma router_dispatch_sample :
  fetch (sample_auth "blog.example.com") sample_env
    = handleAuth (sample_auth "blog.example.com") sample_env
  /\ fetch sample_return sample_env = handleCallback sample_return sample_env
  /\ fetch {| method := "POST"; pathname := "/callback"; searchParams := [];
              cookie := None |} sample_env
     = Ret {| status := 404; body := ""; headers := [] |}.
Proof.
  split; [| split].
  - apply (proj1 (router_dispatch (sample_auth "blog.example.com") sample_env));
      [reflexivity | left; reflexivity].
  - apply (proj1 (proj2 (router_dispatch sample_return sample_env)));
      [reflexivity | left; reflexivity].
  - apply (proj2 (proj2 (router_dispatch
                           {| method := "POST"; pathname := "/callback";
                              searchParams := []; cookie := None |} sample_env))).
    intros [Hm _]. discriminate Hm.
Defined.

(** C10, as amended, on the raw UUID as cookie value, on the value [abc-def],
    and on a cookie of uppercase digits equal to [state]. *)
Lemma csrf_cookie_shape_sample :
  is_hex32 sample_token = true
  /\ csrfToken_of (Some ("" ++ "csrf-token=" ++ sample_uuid))
     = (if negb (RegExp.word_before (RegExp.start (last_char None "")))
           && starts_with_token sample_uuid
        then Some (take 32 sample_uuid) else csrfToken_of None)
  /\ csrfToken_of (Some ("theme=dark; " ++ "csrf-token=" ++ "abc-def; lang=en"))
     = (if negb (RegExp.word_before (RegExp.start (last_char None "theme=dark; ")))
           && starts_with_token "abc-def; lang=en"
        then Some (take 32 "abc-def; lang=en") else csrfToken_of None)
  /\ csrfToken_of (Some ("csrf-token=" ++ "0123456789ABCDEF0123456789ABCDEF"))
     = csrfToken_of None
  /\ handleCallback
       (sample_callback [("code", "abc"); ("state", "0123456789ABCDEF0123456789ABCDEF")]
                        (Some "csrf-token=0123456789ABCDEF0123456789ABCDEF"))
       sample_env =
       Ret (outputHTML
              {| provider := None; token := None;
                 error := Some (JStr "Potential CSRF attack detected. Authentication flow aborted.");
                 errorCode := Some "CSRF_DETECTED" |}).
Proof.
  split; [| split; [| split; [| split]]].
  - apply (proj1 csrf_cookie_shape (Some ("csrf-token=" ++ sample_token)) sample_token).
    reflexivity.
  - apply (proj1 (proj2 (proj2 csrf_cookie_shape)) "" sample_uuid); reflexivity.
  - apply (proj1 (proj2 (proj2 csrf_cookie_shape)) "theme=dark; " "abc-def; lang=en");
      reflexivity.
  - apply (proj1 (proj2 (proj2 (proj2 csrf_cookie_shape)))
             "0123456789ABCDEF0123456789ABCDEF");
      reflexivity.
  - apply (proj2 (proj2 (proj2 (proj2 csrf_cookie_shape)))
             (sample_callback
                [("code", "abc"); ("state", "0123456789ABCDEF0123456789ABCDEF")]
                (Some "csrf-token=0123456789ABCDEF0123456789ABCDEF"))
             sample_env "abc" "0123456789ABCDEF0123456789ABCDEF");
      try reflexivity; discriminate.
Defined.

(** The raw UUID and [abc-def] as cookie values: no token. *)
Example cookie_values_treated_as_absent :
  csrfToken_of (Some ("csrf-token=" ++ sample_uuid)) = None
  /\ csrfToken_of (Some "theme=dark; csrf-token=abc-def; lang=en") = None.
Proof. split; reflexivity. Qed.

(** C10 as stated fails: a cookie value that is not 32 lowercase hexadecimal
    characters, here 32 of them followed by [-x], is not treated as absent.
    Its first 32 characters are the token, and the callback whose [state] they
    are goes on to the token request, while the same callback without cookie
    is answered with CSRF_DETECTED. *)
Lemma cookie_with_suffix_is_read :
  is_hex32 (sample_token ++ "-x") = false
  /\ csrfToken_of (Some ("csrf-token=" ++ sample_token ++ "-x")) = Some sample_token
  /\ csrfToken_of (Some ("csrf-token=" ++ sample_token ++ "-x")) <> csrfToken_of None
  /\ calls_fetch
       (handleCallback
          (sample_callback [("code", "abc"); ("state", sample_token)]
                           (Some ("csrf-token=" ++ sample_token ++ "-x")))
          sample_env)
  /\ handleCallback
       (sample_callback [("code", "abc"); ("state", sample_token)] None) sample_env =
       Ret (outputHTML
              {| provider := None; token := None;
                 error := Some (JStr "Potential CSRF attack detected. Authentication flow aborted.");
                 errorCode := Some "CSRF_DETECTED" |}).
Proof.
  repeat split; try reflexivity; try discriminate.
  apply calls_fetch_here.
Qed.

(** The callback of the sample redirect, answered [{"access_token":"tok123"}]
    by the provider: the page posts the success message with the token. *)
Example callback_in_full :
  produces (fetch sample_return sample_env)
    {| status := 200;
       body := html "github" "success"
                 ("{" ++ Str.dquote ++ "provider" ++ Str.dquote ++ ":"
                  ++ Str.dquote ++ "github" ++ Str.dquote ++ ","
                  ++ Str.dquote ++ "token" ++ Str.dquote ++ ":"
                  ++ Str.dquote ++ "tok123" ++ Str.dquote ++ "}");
       headers := [("Content-Type", "text/html;charset=UTF-8");
                   ("Set-Cookie", delete_cookie)] |}.
Proof.
  apply (produces_fetch _ _ _
           (Some {| response_json := Some (JObj [("access_token", JStr "tok123")]) |})).
  apply produces_ret.
Qed.

(* ================================================================= *)
(** * Further properties *)

(** ** Escaping and allow-list entries *)

(** X1. A text escaped by [escapeRegExp] and put between [^] and [$] is a
    pattern that [new RegExp] accepts and that matches this text and no
    other. *)
Theorem escapeRegExp_matches_itself (s : string) :
  exists r,
    RegExp.parse ("^" ++ escapeRegExp s ++ "$") = Some r
    /\ forall d, RegExp.exec r d <> None <-> d = s.
Proof.
  exists (RegExp.Bol :: RegExp.literal s ++ [RegExp.Eol])%list. split.
  - change ("^" ++ escapeRegExp s ++ "$") with (String "^" (escapeRegExp s ++ "$")).
    rewrite parse_cons. change (Ascii.eqb "^" "^") with true. cbv iota.
    rewrite (parse_escaped s "$" [RegExp.Eol]); reflexivity.
  - intros d. rewrite exec_anchored. split.
    + destruct (RegExp.m _ RegExp.accept (RegExp.start None) d) as [v |] eqn:Hm;
        [intros _ | congruence].
      destruct (m_literal_inv _ _ _ _ _ _ Hm) as [rest ->].
      rewrite m_literal_app in Hm. cbn [RegExp.m] in Hm.
      destruct rest; [apply append_nil_r | discriminate].
    + intros ->. rewrite <- (append_nil_r s) at 2.
      rewrite m_literal_app. discriminate.
Qed.

(** X2. An allow-list entry without wildcard matches the domain that is the
    entry itself, trimmed, and no other: its dots and other special characters
    stand for themselves, and nothing may come before or after. *)
Theorem literal_entry_match (str : string) :
  Str.mem "*" (Str.trim str) = false ->
  domain_pattern str = "^" ++ escapeRegExp (Str.trim str) ++ "$"
  /\ forall domain, domain_match str domain = true <-> domain = Str.trim str.
Proof.
  intros Hno. split.
  - apply (domain_pattern_literal str Hno).
  - intros domain. apply (domain_match_literal str domain Hno).
Qed.

Lemma literal_entry_match_sample :
  domain_pattern " www.example.com" = "^" ++ escapeRegExp (Str.trim " www.example.com") ++ "$"
  /\ forall domain,
       domain_match " www.example.com" domain = true
       <-> domain = Str.trim " www.example.com".
Proof. apply (literal_entry_match " www.example.com"). reflexivity. Defined.

Lemma mem_append (c : ascii) (a b : string) :
  Str.mem c (a ++ b) = Str.mem c a || Str.mem c b.
Proof.
  induction a as [| x a IH]; cbn [append Str.mem]; [reflexivity |].
  now rewrite IH, orb_assoc.
Qed.

(** X3. Only the first wildcard of an entry is one: when the entry has a second
    wildcard, every domain it matches contains an asterisk. *)
Theorem second_wildcard_is_literal (str pre suf domain : string) :
  Str.trim str = pre ++ "*" ++ suf -> Str.mem "*" pre = false ->
  Str.mem "*" suf = true ->
  domain_match str domain = true -> Str.mem "*" domain = true.
Proof.
  intros Htrim Hpre Hsuf Hm.
  apply (domain_match_wildcard str pre suf domain Htrim Hpre) in Hm.
  destruct Hm as [mid [_ [_ ->]]].
  rewrite !mem_append, Hsuf. now rewrite !orb_true_r.
Qed.

Lemma second_wildcard_is_literal_sample :
  Str.mem "*" "a.*.example.com" = true.
Proof.
  apply (second_wildcard_is_literal "*.*.example.com" "" ".*.example.com" "a.*.example.com");
    reflexivity.
Defined.

(** An entry matches the empty domain exactly when it is blank. *)
Lemma entry_matches_empty (str : string) :
  domain_match str "" = true <-> Str.trim str = "".
Proof.
  destruct (Str.mem "*" (Str.trim str)) eqn:Hstar.
  - destruct (first_wildcard _ Hstar) as [pre [suf [Htrim Hpre]]].
    rewrite (domain_match_wildcard str pre suf "" Htrim Hpre). split.
    + intros [mid [Hne [_ Heq]]]. exfalso.
      destruct pre; [| discriminate Heq]. destruct mid; [congruence | discriminate Heq].
    + intros Hempty. rewrite Hempty in Hstar. discriminate Hstar.
  - rewrite (domain_match_literal str "" Hstar). split; congruence.
Qed.

(** X4. A request without [site_id] is checked as the empty domain: under a
    non-empty allow-list it is answered with UNSUPPORTED_DOMAIN unless some
    entry of the list is blank (as after a trailing comma). *)
Theorem missing_site_id (request : Request) (env : Env) (allowed : string) :
  assoc_last "site_id" (searchParams request) = None ->
  ALLOWED_DOMAINS env = Some allowed -> allowed <> "" ->
  handleAuth request env = Ret UNSUPPORTED_DOMAIN
  <-> forall str, In str (Str.split "," allowed) -> Str.trim str <> "".
Proof.
  intros Hsite Hallowed Hne.
  unfold handleAuth. rewrite Hsite, Hallowed. unfold domain_rejected.
  apply String.eqb_neq in Hne. rewrite Hne. cbn [negb andb].
  destruct (existsb _ _) eqn:Hex; cbn [negb].
  - apply existsb_exists in Hex. destruct Hex as [str [Hin Hm]].
    apply entry_matches_empty in Hm. split; [discriminate |].
    intros Hall. exfalso. exact (Hall str Hin Hm).
  - split; [intros _ | reflexivity].
    intros str Hin Hblank. apply entry_matches_empty in Hblank.
    assert (Hsome : existsb (fun str => domain_match str "") (Str.split "," allowed) = true)
      by (apply existsb_exists; exists str; auto).
    congruence.
Qed.

Lemma missing_site_id_sample :
  handleAuth {| method := "GET"; pathname := "/oauth"; searchParams := []; cookie := None |}
             sample_env = Ret UNSUPPORTED_DOMAIN
  <-> forall str, In str (Str.split "," "*.example.com") -> Str.trim str <> "".
Proof.
  apply (missing_site_id
           {| method := "GET"; pathname := "/oauth"; searchParams := []; cookie := None |}
           sample_env "*.example.com"); try reflexivity. discriminate.
Defined.

Lemma error_pages_differ :
  MISCONFIGURED_CLIENT <> UNSUPPORTED_DOMAIN.
Proof.
  intros H. apply (f_equal body) in H. vm_compute in H. discriminate H.
Qed.

(** X5. When [ALLOWED_DOMAINS] is unset or empty, no request is answered with
    UNSUPPORTED_DOMAIN, whatever its [site_id], absent or empty included. *)
Theorem no_allow_list_accepts_all (request : Request) (env : Env) (response : Response) :
  ALLOWED_DOMAINS env = None \/ ALLOWED_DOMAINS env = Some "" ->
  produces (handleAuth request env) response -> response <> UNSUPPORTED_DOMAIN.
Proof.
  intros Hallowed Hp.
  assert (Hrej : domain_rejected (ALLOWED_DOMAINS env)
                   (assoc_last "site_id" (searchParams request)) = false)
    by (destruct Hallowed as [-> | ->]; reflexivity).
  unfold handleAuth in Hp. rewrite Hrej in Hp.
  inversion Hp as [| k uuid a Hk |]; subst.
  destruct (misconfigured env).
  - inversion Hk; subst. exact error_pages_differ.
  - rewrite redirect_response in Hk. destruct (_ && _); inversion Hk; subst.
    intros H. apply (f_equal status) in H. discriminate H.
Qed.

Lemma no_allow_list_accepts_all_sample :
  MISCONFIGURED_CLIENT <> UNSUPPORTED_DOMAIN.
Proof.
  apply (no_allow_list_accepts_all
           (sample_auth "anything.example.org")
           {| ALLOWED_DOMAINS := None; GITHUB_CLIENT_ID := None;
              GITHUB_CLIENT_SECRET := None; GITHUB_HOSTNAME := None |}
           MISCONFIGURED_CLIENT).
  - left. reflexivity.
  - apply (produces_uuid _ sample_uuid). apply produces_ret.
Defined.

(** X6. Under a non-empty allow-list the domain goes through exactly when some
    comma-separated entry, trimmed, either has no wildcard and is the domain,
    or has one and is the domain with its first wildcard replaced by a
    non-empty run of characters other than line terminators. *)
Theorem allow_list_decision (allowed domain : string) :
  allowed <> "" ->
  domain_rejected (Some allowed) (Some domain) = false
  <-> exists str,
        In str (Str.split "," allowed)
        /\ ((Str.mem "*" (Str.trim str) = false /\ domain = Str.trim str)
            \/ exists pre suf mid,
                 Str.trim str = pre ++ "*" ++ suf /\ Str.mem "*" pre = false
                 /\ mid <> ""
                 /\ Str.all (fun c => negb (RegExp.is_line_terminator c)) mid = true
                 /\ domain = pre ++ mid ++ suf).
Proof.
  intros Hne. rewrite domain_rejected_false. split.
  - intros [H | [H | [list [str [Hl [Hin Hm]]]]]]; try congruence.
    injection Hl as <-. exists str. split; [assumption |].
    destruct (Str.mem "*" (Str.trim str)) eqn:Hstar.
    + right. destruct (first_wildcard _ Hstar) as [pre [suf [Htrim Hpre]]].
      apply (domain_match_wildcard str pre suf domain Htrim Hpre) in Hm.
      destruct Hm as [mid [Hmid [Hall Heq]]].
      exists pre, suf, mid. auto.
    + left. split; [reflexivity |]. now apply (domain_match_literal str domain Hstar).
  - intros [str [Hin H]]. right. right. exists allowed, str.
    split; [reflexivity |]. split; [assumption |].
    destruct H as [[Hstar Heq] | [pre [suf [mid [Htrim [Hpre [Hmid [Hall Heq]]]]]]]].
    + now apply (domain_match_literal str domain Hstar).
    + apply (domain_match_wildcard str pre suf domain Htrim Hpre). exists mid. auto.
Qed.

Lemma allow_list_decision_sample :
  domain_rejected (Some "example.com, *.example.com") (Some "example.com") = false
  <-> exists str,
        In str (Str.split "," "example.com, *.example.com")
        /\ ((Str.mem "*" (Str.trim str) = false /\ "example.com" = Str.trim str)
            \/ exists pre suf mid,
                 Str.trim str = pre ++ "*" ++ suf /\ Str.mem "*" pre = false
                 /\ mid <> ""
                 /\ Str.all (fun c => negb (RegExp.is_line_terminator c)) mid = true
                 /\ "example.com" = pre ++ mid ++ suf).
Proof.
  apply (allow_list_decision "example.com, *.example.com" "example.com"). discriminate.
Defined.

(** ** The initiator and the callback handler without credentials *)



(** X8. Without the client id or the client secret the callback handler makes
    no outbound request, so the authorization code goes nowhere; a callback
    that passes the parameter and CSRF checks is answered with
    MISCONFIGURED_CLIENT. *)
Theorem callback_misconfigured (request : Request) (env : Env) :
  truthy_string (GITHUB_CLIENT_ID env) = false
  \/ truthy_string (GITHUB_CLIENT_SECRET env) = false ->
  ~ calls_fetch (handleCallback request env)
  /\ forall code state,
       assoc_last "code" (searchParams request) = Some code -> code <> "" ->
       assoc_last "state" (searchParams request) = Some state -> state <> "" ->
       csrfToken_of (cookie request) = Some state ->
       handleCallback request env = Ret MISCONFIGURED_CLIENT.
Proof.
  intros Hcred.
  assert (Hconf : misconfigured env = true).
  { unfold misconfigured. destruct Hcred as [-> | ->]; [reflexivity | apply orb_true_r]. }
  split.
  - unfold handleCallback. rewrite Hconf.
    destruct (_ || _); [intros H; inversion H |].
    destruct (_ || _); intros H; inversion H.
  - intros code state Hcode Hc Hstate Hs Htoken.
    rewrite (handleCallback_checked request env code state) by assumption.
    rewrite Htoken, Hconf.
    assert (Heq : strict_equal (Some state) (Some state) = true)
      by (now apply strict_equal_spec).
    now rewrite Heq.
Qed.

Lemma callback_misconfigured_sample :
  handleCallback sample_return (with_secret sample_env (Some "")) = Ret MISCONFIGURED_CLIENT.
Proof.
  apply (proj2 (callback_misconfigured sample_return (with_secret sample_env (Some ""))
                  (or_intror eq_refl)) "abc" sample_token);
    try reflexivity; discriminate.
Defined.

(** ** The client secret *)

Lemma misconfigured_with_secret (env : Env) (secret : string) :
  secret <> "" ->
  misconfigured (with_secret env (Some secret)) = negb (truthy_string (GITHUB_CLIENT_ID env)).
Proof.
  intros Hne. apply String.eqb_neq in Hne.
  unfold misconfigured, with_secret.
  cbn [GITHUB_CLIENT_ID GITHUB_CLIENT_SECRET truthy_string].
  rewrite Hne. cbn [negb]. apply orb_false_r.
Qed.

Lemma handleAuth_secret (request : Request) (env : Env) (s1 s2 : string) :
  s1 <> "" -> s2 <> "" ->
  handleAuth request (with_secret env (Some s1)) = handleAuth request (with_secret env (Some s2)).
Proof.
  intros H1 H2. unfold handleAuth.
  rewrite (misconfigured_with_secret env s1 H1), (misconfigured_with_secret env s2 H2).
  reflexivity.
Qed.

Lemma handleCallback_secret
    (request : Request) (env : Env) (s1 s2 uuid : string) (answer : option FetchResponse) :
  s1 <> "" -> s2 <> "" ->
  run uuid answer (handleCallback request (with_secret env (Some s1)))
  = run uuid answer (handleCallback request (with_secret env (Some s2))).
Proof.
  intros H1 H2. unfold handleCallback.
  rewrite (misconfigured_with_secret env s1 H1), (misconfigured_with_secret env s2 H2).
  destruct (_ || _); [reflexivity |].
  destruct (_ || _); [reflexivity |].
  destruct (negb _); reflexivity.
Qed.

(** X9. What the worker answers does not depend on the value of the client
    secret: two environments that differ only in a non-empty secret give the
    same response to every request, for the same answers of the platform. *)
Theorem client_secret_not_in_responses
    (request : Request) (env : Env) (s1 s2 uuid : string) (answer : option FetchResponse) :
  s1 <> "" -> s2 <> "" ->
  run uuid answer (fetch request (with_secret env (Some s1)))
  = run uuid answer (fetch request (with_secret env (Some s2))).
Proof.
  intros H1 H2. unfold fetch.
  destruct (_ && _).
  - now rewrite (handleAuth_secret request env s1 s2 H1 H2).
  - destruct (_ && _); [| reflexivity].
    apply handleCallback_secret; assumption.
Qed.

Lemma client_secret_not_in_responses_sample :
  run sample_uuid (Some {| response_json := Some (JObj [("access_token", JStr "tok123")]) |})
      (fetch sample_return (with_secret sample_env (Some "s3cret")))
  = run sample_uuid (Some {| response_json := Some (JObj [("access_token", JStr "tok123")]) |})
        (fetch sample_return (with_secret sample_env (Some "other"))).
Proof.
  apply (client_secret_not_in_responses sample_return sample_env "s3cret" "other");
    discriminate.
Defined.

(** ** From the redirect to the callback *)

(** X10. The token is read back from the cookie the initiator sets, wherever
    it stands in the [Cookie] header: when [csrf-token=] and 32 lowercase
    hexadecimal characters come after a text without the letter [c] that does
    not end in a letter, digit or underscore (nothing, or other cookies and
    [; ]), and before nothing or a character that is no letter, digit or
    underscore, these 32 characters are the token.  The name of the cookie is
    not checked beyond that: [x-csrf-token=...] is read as well. *)
Theorem cookie_token_read_back (before tok rest : string) :
  Str.mem "c" before = false ->
  match last_char None before with Some c => RegExp.is_word_char c | None => false end = false ->
  is_hex32 tok = true -> RegExp.word_after rest = false ->
  csrfToken_of (Some (before ++ "csrf-token=" ++ tok ++ rest)) = Some tok.
Proof.
  intros Hno Hlast Hhex Hrest. unfold csrfToken_of, RegExp.exec.
  rewrite search_csrf_before by assumption.
  pose proof (csrf_regex_accepts (last_char None before) tok rest Hhex Hrest Hlast) as Hm.
  change ("csrf-token=" ++ tok ++ rest)
    with (String "c" ("srf-token=" ++ tok ++ rest)) in *.
  now rewrite search_cons, Hm.
Qed.

Lemma cookie_token_read_back_sample :
  csrfToken_of (Some ("theme=dark; x-" ++ "csrf-token=" ++ sample_token ++ "; lang=en"))
  = Some sample_token.
Proof.
  apply (cookie_token_read_back "theme=dark; x-" sample_token "; lang=en"); reflexivity.
Defined.

(** X11. The two handlers fit together.  When the initiator redirects with the
    token made of the platform's UUID (the hostname holding no NUL, line feed
    or carriage return, so that [new Response] does not throw), the callback
    that brings this token back, as [state] and in the cookie, together with a
    non-empty [code], passes the CSRF check: the handler posts the code to the
    token endpoint. *)
Theorem redirect_then_callback
    (request back : Request) (env : Env) (uuid code : string) :
  domain_rejected (ALLOWED_DOMAINS env)
                  (assoc_last "site_id" (searchParams request)) = false ->
  misconfigured env = false ->
  is_header_value (hostname_of env) = true ->
  is_uuid uuid = true ->
  assoc_last "code" (searchParams back) = Some code -> code <> "" ->
  assoc_last "state" (searchParams back) = Some (Str.replaceAll "-" "" uuid) ->
  cookie back = Some ("csrf-token=" ++ Str.replaceAll "-" "" uuid) ->
  run uuid None (handleAuth request env) =
    Some {| status := 302; body := "";
            headers := [("Location", authURL env (Str.replaceAll "-" "" uuid));
                        ("Set-Cookie",
                         "csrf-token=" ++ Str.replaceAll "-" "" uuid
                         ++ "; HttpOnly; Path=/; Max-Age=600; SameSite=Lax; Secure")] |}
  /\ handleCallback back env =
       Fetch (tokenURL env) (token_request (Some code) env)
             (fun answer => Ret (render_exchange answer)).
Proof.
  intros Hdomain Hconf Hhost Huuid Hcode Hc Hstate Hcookie.
  pose proof (uuid_token uuid Huuid) as Hhex. split.
  - unfold handleAuth. rewrite Hdomain. cbn [run].
    rewrite Hconf, redirect_response, Hhost, (hex32_header_value _ Hhex). reflexivity.
  - assert (Hne : Str.replaceAll "-" "" uuid <> "").
    { intros Hempty. rewrite Hempty in Hhex. discriminate Hhex. }
    apply (handleCallback_exchange back env code (Str.replaceAll "-" "" uuid));
      try assumption.
    rewrite Hcookie. unfold csrfToken_of, RegExp.exec.
    pose proof (csrf_regex_accepts None _ "" Hhex eq_refl eq_refl) as Hm.
    rewrite append_nil_r in Hm.
    change ("csrf-token=" ++ Str.replaceAll "-" "" uuid)
      with (String "c" ("srf-token=" ++ Str.replaceAll "-" "" uuid)) in *.
    now rewrite search_cons, Hm.
Qed.

Lemma redirect_then_callback_sample :
  run sample_uuid None (handleAuth (sample_auth "blog.example.com") sample_env) =
    Some {| status := 302; body := "";
            headers := [("Location", authURL sample_env (Str.replaceAll "-" "" sample_uuid));
                        ("Set-Cookie",
                         "csrf-token=" ++ Str.replaceAll "-" "" sample_uuid
                         ++ "; HttpOnly; Path=/; Max-Age=600; SameSite=Lax; Secure")] |}
  /\ handleCallback sample_return sample_env =
       Fetch (tokenURL sample_env) (token_request (Some "abc") sample_env)
             (fun answer => Ret (render_exchange answer)).
Proof.
  apply (redirect_then_callback (sample_auth "blog.example.com") sample_return
           sample_env sample_uuid "abc");
    try reflexivity; discriminate.
Defined.

(** ** The outbound request and the final page *)

Lemma truthy_string_some (v : option string) :
  truthy_string v = true -> exists s, v = Some s /\ s <> "".
Proof.
  destruct v as [s |]; [| discriminate]. cbn [truthy_string]. intros H.
  exists s. split; [reflexivity |]. apply String.eqb_neq. now apply negb_true_iff.
Qed.

(** X12. The callback handler calls the platform at most once, and the call is
    always the same: a POST to [https://<hostname>/login/oauth/access_token]
    that accepts and sends JSON, whose body is the object of the request's
    [code] and the configured client id and secret, in this order; whatever
    the answer, the handler then returns. *)
Theorem token_request_shape
    (request : Request) (env : Env)
    (url : string) (init : RequestInit) (k : option FetchResponse -> io Response) :
  handleCallback request env = Fetch url init k ->
  exists code client_id client_secret,
    assoc_last "code" (searchParams request) = Some code
    /\ GITHUB_CLIENT_ID env = Some client_id
    /\ GITHUB_CLIENT_SECRET env = Some client_secret
    /\ url = "https://" ++ hostname_of env ++ "/login/oauth/access_token"
    /\ init_method init = "POST"
    /\ init_headers init =
         [("Accept", "application/json"); ("Content-Type", "application/json")]
    /\ init_body init =
         JSON_stringify (JObj [("code", JStr code); ("client_id", JStr client_id);
                               ("client_secret", JStr client_secret)])
    /\ forall answer, exists response, k answer = Ret response.
Proof.
  unfold handleCallback. intros H.
  destruct (negb (truthy_string (assoc_last "code" (searchParams request))) || _) eqn:Hparams;
    [discriminate H |].
  match type of H with
  | (if ?b then _ else _) = _ => destruct b; [discriminate H |]
  end.
  destruct (misconfigured env) eqn:Hconf; [discriminate H |].
  injection H as <- <- <-.
  apply orb_false_elim in Hparams. destruct Hparams as [Hcode _].
  apply negb_false_iff, truthy_string_some in Hcode. destruct Hcode as [code [Hcode _]].
  unfold misconfigured in Hconf. apply orb_false_elim in Hconf. destruct Hconf as [Hid Hsecret].
  apply negb_false_iff, truthy_string_some in Hid. destruct Hid as [client_id [Hid _]].
  apply negb_false_iff, truthy_string_some in Hsecret.
  destruct Hsecret as [client_secret [Hsecret _]].
  exists code, client_id, client_secret.
  repeat (split; [try assumption; try reflexivity |]).
  - unfold token_request. cbn [init_body]. now rewrite Hcode, Hid, Hsecret.
  - intros answer. eexists. reflexivity.
Qed.

Lemma token_request_shape_sample :
  exists code client_id client_secret,
    assoc_last "code" (searchParams sample_return) = Some code
    /\ GITHUB_CLIENT_ID sample_env = Some client_id
    /\ GITHUB_CLIENT_SECRET sample_env = Some client_secret
    /\ tokenURL sample_env = "https://" ++ hostname_of sample_env ++ "/login/oauth/access_token"
    /\ init_method (token_request (Some "abc") sample_env) = "POST"
    /\ init_headers (token_request (Some "abc") sample_env) =
         [("Accept", "application/json"); ("Content-Type", "application/json")]
    /\ init_body (token_request (Some "abc") sample_env) =
         JSON_stringify (JObj [("code", JStr code); ("client_id", JStr client_id);
                               ("client_secret", JStr client_secret)])
    /\ forall answer, exists response, Ret (render_exchange answer) = Ret response.
Proof.
  apply (token_request_shape sample_return sample_env (tokenURL sample_env)
           (token_request (Some "abc") sample_env)
           (fun answer => Ret (render_exchange answer))).
  reflexivity.
Defined.

(** X13. When the parsed body of the token response is not [null], has an
    [access_token] and no truthy [error], the page carries the success message
    whose payload is the provider and the token as the provider gave it, and
    nothing else; the CSRF cookie is deleted. *)
Theorem exchange_with_token
    (request : Request) (env : Env) (code state : string)
    (response : FetchResponse) (parsed access_token : json) :
  assoc_last "code" (searchParams request) = Some code -> code <> "" ->
  assoc_last "state" (searchParams request) = Some state -> state <> "" ->
  csrfToken_of (cookie request) = Some state ->
  misconfigured env = false ->
  response_json response = Some parsed -> parsed <> JNull ->
  get_property parsed "access_token" = Some access_token ->
  truthy (get_property parsed "error") = false ->
  forall uuid,
    run uuid (Some response) (handleCallback request env) =
      Some {| status := 200;
              body := html "github" "success"
                        (JSON_stringify (JObj [("provider", JStr "github");
                                               ("token", access_token)]));
              headers := [("Content-Type", "text/html;charset=UTF-8");
                          ("Set-Cookie", delete_cookie)] |}.
Proof.
  intros Hcode Hc Hstate Hs Htoken Hconf Hjson Hnot Haccess Hnoerror uuid.
  rewrite (handleCallback_exchange request env code state) by assumption.
  cbn [run]. unfold render_exchange. rewrite Hjson.
  assert (Hr : outputHTML {| provider := None;
                             token := get_property parsed "access_token";
                             error := get_property parsed "error";
                             errorCode := None |} =
               {| status := 200;
                  body := html "github" "success"
                            (JSON_stringify (JObj [("provider", JStr "github");
                                                   ("token", access_token)]));
                  headers := [("Content-Type", "text/html;charset=UTF-8");
                              ("Set-Cookie", delete_cookie)] |}).
  { unfold outputHTML. cbn [error provider errorCode token].
    rewrite Hnoerror, Haccess. reflexivity. }
  destruct parsed; first [congruence | now rewrite <- Hr].
Qed.

Lemma exchange_with_token_sample :
    run sample_uuid (Some {| response_json := Some (JObj [("access_token", JStr "tok123")]) |})
        (handleCallback sample_return sample_env) =
      Some {| status := 200;
              body := html "github" "success"
                        (JSON_stringify (JObj [("provider", JStr "github");
                                               ("token", JStr "tok123")]));
              headers := [("Content-Type", "text/html;charset=UTF-8");
                          ("Set-Cookie", delete_cookie)] |}.
Proof.
  refine (exchange_with_token sample_return sample_env "abc" sample_token
            {| response_json := Some (JObj [("access_token", JStr "tok123")]) |}
            (JObj [("access_token", JStr "tok123")]) (JStr "tok123")
            _ _ _ _ _ _ _ _ _ _ sample_uuid);
    try reflexivity; discriminate.
Defined.

(** ** The authorization URL *)

Lemma urlencode_char_safe (c : ascii) :
  Str.all is_query_safe (String.concat "" (map urlencode_byte (utf8 c))) = true.
Proof. destruct c as [[] [] [] [] [] [] [] []]; reflexivity. Qed.

Lemma urlencode_safe (s : string) : Str.all is_query_safe (urlencode s) = true.
Proof.
  induction s as [| c s IH]; cbn [urlencode]; [reflexivity |].
  now rewrite all_append, urlencode_char_safe, IH.
Qed.

(** X14. Whatever the client id and the token are, the query of the
    authorization URL has the three parameters [client_id], [scope] and [state]
    and no more: the serialized id and token hold only letters, digits and
    [* - . _ % +], so neither can end its parameter or start another. *)
Theorem authURL_three_parameters (env : Env) (csrfToken : string) :
  exists client_id state,
    authURL env csrfToken =
      "https://" ++ hostname_of env ++ "/login/oauth/authorize?client_id=" ++ client_id
      ++ "&scope=repo%2Cuser&state=" ++ state
    /\ client_id = urlencode (ToString (GITHUB_CLIENT_ID env))
    /\ state = urlencode csrfToken
    /\ Str.all is_query_safe client_id = true
    /\ Str.all is_query_safe state = true.
Proof.
  exists (urlencode (ToString (GITHUB_CLIENT_ID env))), (urlencode csrfToken).
  split; [| repeat split; apply urlencode_safe].
  unfold authURL, URLSearchParams_toString. cbn [map String.concat fst snd].
  change (urlencode "client_id") with "client_id".
  change (urlencode "scope") with "scope".
  change (urlencode "state") with "state".
  change (urlencode "repo,user") with "repo%2Cuser".
  now rewrite !append_assoc.
Qed.

(** ** The error codes *)

(** X15. The pages of the worker are closed under six error codes: every
    response with status 200 is either the page of one of UNSUPPORTED_DOMAIN,
    MISCONFIGURED_CLIENT, AUTH_CODE_REQUEST_FAILED, CSRF_DETECTED,
    TOKEN_REQUEST_FAILED and MALFORMED_RESPONSE, or the page made of the
    [access_token] and [error] of a parsed token response, without error
    code. *)
Theorem responses_and_error_codes (request : Request) (env : Env) (response : Response) :
  produces (fetch request env) response ->
  status response = 200 ->
  (exists message code, In code error_codes /\ response = error_page message code)
  \/ exists parsed,
       parsed <> JNull
       /\ response = outputHTML {| provider := None;
                                  token := get_property parsed "access_token";
                                  error := get_property parsed "error";
                                  errorCode := None |}.
Proof.
  intros Hp Hstatus. unfold fetch in Hp.
  destruct (_ && _).
  - unfold handleAuth in Hp. destruct (domain_rejected _ _).
    + inversion Hp; subst. left. do 2 eexists. split; [| reflexivity]. simpl. tauto.
    + inversion Hp as [| k uuid a Hk |]; subst.
      destruct (misconfigured env).
      * inversion Hk; subst. left. do 2 eexists. split; [| reflexivity]. simpl. tauto.
      * rewrite redirect_response in Hk. destruct (_ && _); inversion Hk; subst.
        discriminate Hstatus.
  - destruct (_ && _).
    + unfold handleCallback in Hp.
      repeat match type of Hp with
             | produces (if ?b then _ else _) _ => destruct b
             end;
        try (inversion Hp; subst; left; do 2 eexists;
             split; [| reflexivity]; simpl; tauto).
      inversion Hp as [| | url init k answer a Hk]; subst.
      inversion Hk; subst. unfold render_exchange.
      destruct answer as [resp |];
        [| left; do 2 eexists; split; [| reflexivity]; simpl; tauto].
      destruct (response_json resp) as [parsed |];
        [| left; do 2 eexists; split; [| reflexivity]; simpl; tauto].
      assert (Hnull : parsed = JNull \/ parsed <> JNull)
        by (destruct parsed; first [left; reflexivity | right; discriminate]).
      destruct Hnull as [-> | Hnot].
      * left. do 2 eexists. split; [| reflexivity]. simpl. tauto.
      * right. exists parsed. split; [assumption |].
        destruct parsed; first [reflexivity | congruence].
    + inversion Hp; subst. discriminate Hstatus.
Qed.

Lemma responses_and_error_codes_sample :
  (exists message code, In code error_codes /\ UNSUPPORTED_DOMAIN = error_page message code)
  \/ exists parsed,
       parsed <> JNull
       /\ UNSUPPORTED_DOMAIN = outputHTML {| provider := None;
                                            token := get_property parsed "access_token";
                                            error := get_property parsed "error";
                                            errorCode := None |}.
Proof.
  apply (responses_and_error_codes (sample_auth "example.org") sample_env UNSUPPORTED_DOMAIN).
  - apply produces_ret.
  - reflexivity.
Defined.
